(** * ArcticDB: clause structuring, read options and the Mongo client

    A shallow embedding of
    - [cpp/arcticdb/processing/clause.hpp]      (the clause structs),
    - [cpp/arcticdb/pipeline/read_options.hpp]  (ReadOptions),
    - [cpp/arcticdb/storage/mongo/mongo_client.cpp] (MongoClientImpl),
    followed by the properties established about them.

    Conventions.
    - A C++ call either returns, throws, or has undefined behaviour: the
      [outcome] type below has one constructor for each.
    - Fixed-width integers are [Z]; a conversion that can wrap is written out.
    - A [std::vector] passed by non-const reference is returned next to the
      result, so that in-place reordering is visible.
    - The object behind a [std::shared_ptr] that a member function mutates is
      threaded through the call as explicit state. *)

From Stdlib Require Import ZArith Lia.
From stdpp Require Import base option list strings pretty gmap sorting.

(** ** Outcomes of a call *)

Inductive ErrorCode :=
  | E_ASSERTION_FAILURE
  | E_INVALID_USER_ARGUMENT.

Inductive exception :=
  | ArcticException (code : ErrorCode) (msg : string)
      (* internal::raise<code>, user_input::check<code>, util::check *)
  | runtime_error (msg : string)
      (* util::raise_rte *)
  | bsoncxx_exception (field : string)
      (* reading a missing element, or one of another type *)
  | storage_failure (msg : string).
      (* thrown by the StorageFailureSimulator *)

Inductive outcome (A : Type) :=
  | Ok (a : A)
  | Throw (e : exception)
  | Undefined.
Arguments Ok {A} a.
Arguments Throw {A} e.
Arguments Undefined {A}.

#[global] Instance outcome_ret : MRet outcome := @Ok.
#[global] Instance outcome_bind : MBind outcome := λ A B f m,
  match m with
  | Ok a => f a
  | Throw e => Throw e
  | Undefined => Undefined
  end.
#[global] Instance outcome_fmap : FMap outcome := λ A B f m,
  match m with
  | Ok a => Ok (f a)
  | Throw e => Throw e
  | Undefined => Undefined
  end.

Definition raise {A} (code : ErrorCode) (msg : string) : outcome A :=
  Throw (ArcticException code msg).

Definition raise_rte {A} (msg : string) : outcome A :=
  Throw (runtime_error msg).

(** [preconditions::check<code>(cond, msg)]: returns when [cond] holds and
    raises [code] otherwise. *)
Definition check (code : ErrorCode) (cond : bool) (msg : string) : outcome unit :=
  if cond then Ok tt else raise code msg.

Definition is_Ok {A} (o : outcome A) : bool :=
  match o with Ok _ => true | _ => false end.

(** A member function that also reads and updates an object of type [S]
    reached through a pointer: the outcome together with the object as the
    call leaves it (an exception does not undo updates already made). *)
Definition stateful (S A : Type) : Type := S → outcome A * S.

#[global] Instance stateful_ret {S} : MRet (stateful S) := λ A a s, (Ok a, s).
#[global] Instance stateful_bind {S} : MBind (stateful S) := λ A B f m s,
  match m s with
  | (Ok a, s') => f a s'
  | (Throw e, s') => (Throw e, s')
  | (Undefined, s') => (Undefined, s')
  end.

Definition lift_outcome {S A} (o : outcome A) : stateful S A := λ s, (o, s).

(** ** Plan elements *)

(** Modelled from the spec: [RowRange] and [ColRange] are declared in
    [pipeline/frame_slice.hpp], which this development does not cover.
    Section 3: half-open integer intervals [[start,end)]. *)
Record AxisRange := mkRange { first : Z; second : Z }.
Abbreviation RowRange := AxisRange.
Abbreviation ColRange := AxisRange.

#[global] Instance AxisRange_eq_dec : EqDecision AxisRange.
Proof. solve_decision. Defined.

(** Modelled from the spec: [RangesAndKey] is declared in
    [pipeline/frame_slice.hpp] as well.  Section 3: a plan element made of a
    row range, a column range and a storage key; the key type is left
    open. *)
Record RangesAndKey {Key : Type} := mkRangesAndKey {
  row_range_ : RowRange;
  col_range_ : ColRange;
  key_ : Key
}.
Arguments RangesAndKey Key : clear implicits.
Arguments mkRangesAndKey {Key} _ _ _.

Definition EntityId := Z.

(** ** Structuring primitives *)

Section structuring.
Context {Key : Type}.
Implicit Types (rk : RangesAndKey Key) (plan : list (RangesAndKey Key)).

(** The sort key [(row_range.start, col_range.start)], compared
    lexicographically. *)
Definition slice_key rk : Z * Z := (first (row_range_ rk), first (col_range_ rk)).

Definition key_leb (a b : Z * Z) : bool :=
  (a.1 <? b.1)%Z || ((a.1 =? b.1)%Z && (a.2 <=? b.2)%Z).

Definition slice_le rk1 rk2 : Prop := key_leb (slice_key rk1) (slice_key rk2) = true.

#[global] Instance slice_le_dec : RelDecision slice_le.
Proof. intros a b. unfold slice_le. apply _. Defined.

(** Put index [i], whose entry has row range [rr], into the group of the
    entries that share [rr]; a row range seen for the first time opens a
    new group at the end. *)
Fixpoint add_to_group (rr : RowRange) (i : nat)
    (groups : list (RowRange * list nat)) : list (RowRange * list nat) :=
  match groups with
  | [] => [(rr, [i])]
  | (rr', g) :: rest =>
      if decide (rr = rr') then (rr', g ++ [i]) :: rest
      else (rr', g) :: add_to_group rr i rest
  end.

Fixpoint group_from (i : nat) plan
    (groups : list (RowRange * list nat)) : list (RowRange * list nat) :=
  match plan with
  | [] => groups
  | rk :: rest => group_from (S i) rest (add_to_group (row_range_ rk) i groups)
  end.

Definition group_by_row_range plan : list (list nat) :=
  (group_from 0 plan []).*2.

(** Modelled from the spec: [structure_by_row_slice] is defined in
    [processing/clause_utils], which this development does not cover; the
    definitions above are its parts.  Section 4.2: sort the plan lexicographically by
    [(row_range.start, col_range.start)], then partition so that each group
    contains exactly the entries sharing one row range.  The plan is taken
    by reference: the sorted plan is returned with the groups, whose
    members are indexes into the sorted plan. *)
Definition structure_by_row_slice plan : list (RangesAndKey Key) * list (list nat) :=
  let sorted := merge_sort slice_le plan in
  (sorted, group_by_row_range sorted).
(** The groups, each with the row range it stands for, are well formed
    for [plan]: every entry of [plan] whose index is in a group has the
    row range of the group, no group is empty, and no two groups stand
    for the same row range. *)
Definition well_grouped plan (groups : list (RowRange * list nat)) : Prop :=
  NoDup groups.*1 ∧
  Forall (λ p, p.2 ≠ [] ∧ ∀ j, j ∈ p.2 → row_range_ <$> plan !! j = Some p.1) groups.
End structuring.

(** ** Shared declarations of the clause structs *)

(** Modelled from the spec: [ProcessingStructure] is declared in
    [processing/clause_utils.hpp], which this development does not cover.
    Section 3: the input structuring requirement of a clause. *)
Inductive ProcessingStructure := ROW_SLICE | TIME_BUCKET | ALL | MULTI_INPUT.

(** Modelled from the spec: [ClauseInfo] is declared in
    [processing/clause_utils.hpp] as well.  Section 3: the required input
    columns (or none, meaning all), whether the clause may be combined with
    column pruning, its input structuring requirement, whether it modifies
    the row count.  clause.hpp assigns the first three. *)

Record ClauseInfo := mkClauseInfo {
  input_columns_ : option (gset string);
  can_combine_with_column_selection_ : bool;
  input_structure_ : ProcessingStructure;
  modifies_row_count_ : bool
}.

(** Modelled from the spec: the default member initialisers of
    [ClauseInfo], which clause.hpp relies on and does not show. *)
Definition ClauseInfo_default : ClauseInfo :=
  {| input_columns_ := None;
     can_combine_with_column_selection_ := true;
     input_structure_ := ROW_SLICE;
     modifies_row_count_ := false |}.

Definition set_input_columns (cols : gset string) (ci : ClauseInfo) : ClauseInfo :=
  {| input_columns_ := Some cols;
     can_combine_with_column_selection_ := can_combine_with_column_selection_ ci;
     input_structure_ := input_structure_ ci;
     modifies_row_count_ := modifies_row_count_ ci |}.

Definition set_can_combine_with_column_selection (b : bool) (ci : ClauseInfo) : ClauseInfo :=
  {| input_columns_ := input_columns_ ci;
     can_combine_with_column_selection_ := b;
     input_structure_ := input_structure_ ci;
     modifies_row_count_ := modifies_row_count_ ci |}.

Definition set_input_structure (ps : ProcessingStructure) (ci : ClauseInfo) : ClauseInfo :=
  {| input_columns_ := input_columns_ ci;
     can_combine_with_column_selection_ := can_combine_with_column_selection_ ci;
     input_structure_ := ps;
     modifies_row_count_ := modifies_row_count_ ci |}.

Module ProcessingConfig.
(** Modelled from the spec: [ProcessingConfig] is declared in
    [processing/clause_utils.hpp] as well.  Section 4.1: the pipeline-global
    facts given to [set_processing_config], of which clause.hpp reads
    whether the schema is dynamic and, per section 4.6, the total row
    count. *)
Record t := mk {
  dynamic_schema_ : bool;
  total_rows_ : Z      (* uint64_t *)
}.

Definition default : t := {| dynamic_schema_ := false; total_rows_ := 0 |}.
End ProcessingConfig.

(** Modelled from the spec: [OutputSchema] is declared in a header that
    this development does not cover.  Section 3: an ordered list of (column name, type) with a sparse
    flag per column, the declared index column and a dynamic-schema flag. *)
Record OutputSchema := mkOutputSchema {
  columns : list (string * string * bool);
  index_column : option string;
  schema_is_dynamic : bool
}.

(** [OutputSchema{}], the value-initialised schema. *)
Definition OutputSchema_empty : OutputSchema :=
  {| columns := []; index_column := None; schema_is_dynamic := false |}.

#[global] Instance OutputSchema_eq_dec : EqDecision OutputSchema.
Proof. solve_decision. Defined.

(** Modelled from the spec: the alternatives of [VariantNode], the type of
    [ExpressionContext::root_node_name_], are declared in
    [processing/expression_node.hpp], which this development does not
    cover.  Sections 3 and 6: an expression context refers to columns, value
    literals, value sets and expression nodes by name, and names one root. *)
Inductive VariantNode :=
  | monostate
  | ColumnName (value : string)
  | ValueName (value : string)
  | ValueSetName (value : string)
  | ExpressionName (value : string)
  | RegexName (value : string).

Module ExpressionContext.
(** Modelled from the spec: [ExpressionContext] is declared in
    [processing/expression_context.hpp], which this development does not
    cover.  Section 3: it names a single root node; clause.hpp also assigns
    its [dynamic_schema_]. *)
Record t := mk {
  root_node_name_ : VariantNode;
  dynamic_schema_ : bool
}.
End ExpressionContext.

(** [std::holds_alternative<ExpressionName>] and [std::get<ExpressionName>];
    the latter throws [std::bad_variant_access] on another alternative. *)
Definition holds_ExpressionName (v : VariantNode) : bool :=
  match v with ExpressionName _ => true | _ => false end.

Definition get_ExpressionName (v : VariantNode) : outcome string :=
  match v with
  | ExpressionName n => Ok n
  | _ => Throw (runtime_error "bad_variant_access")
  end.

Inductive PipelineOptimisation := SPEED | MEMORY.
Inductive JoinType := INNER | OUTER.

(** [StreamId] is [std::variant<NumericId, StringId>]. *)
Inductive StreamId :=
  | NumericId (n : Z)
  | StringId (s : string).

#[global] Instance StreamId_eq_dec : EqDecision StreamId.
Proof. solve_decision. Defined.

Definition to_uint64 (z : Z) : Z := (z mod 2 ^ 64)%Z.

(** ** The clause structs of clause.hpp

    Each struct is a module: its record [t] holds the data members whose
    types the header declares or the specification describes, and its member
    functions keep their names.  The two overloads of
    [structure_for_processing] are [structure_for_processing] (on the plan,
    used when the clause is first) and [structure_for_processing_ids] (on
    entity ids).  [component_manager_] is a [std::shared_ptr]: the manager
    it points to is passed to the member functions that use it. *)

Module PassthroughClause.
Record t := mk { clause_info_ : ClauseInfo }.

Definition default : t := {| clause_info_ := ClauseInfo_default |}.

Section members.
Context {Key : Type}.

Definition structure_for_processing (self : t)
    (ranges_and_keys : list (RangesAndKey Key))
  : outcome (list (RangesAndKey Key) * list (list nat)) :=
  Ok (structure_by_row_slice ranges_and_keys).
End members.

Definition structure_for_processing_ids (self : t)
    (entity_ids_vec : list (list EntityId)) : list (list EntityId) :=
  entity_ids_vec.

Definition modify_schema (self : t) (output_schema : OutputSchema) : outcome OutputSchema :=
  Ok output_schema.

Definition join_schemas (self : t) (input_schemas : list OutputSchema) : outcome OutputSchema :=
  raise_rte "PassThroughClause::join_schemas should never be called".
End PassthroughClause.

Module FilterClause.
Record t := mk {
  clause_info_ : ClauseInfo;
  expression_context_ : ExpressionContext.t;
  root_node_name_ : string;             (* ExpressionName *)
  optimisation_ : PipelineOptimisation
}.

(** The constructor. *)
Definition new (input_columns : gset string)
    (expression_context : ExpressionContext.t)
    (optimisation : option PipelineOptimisation) : outcome t :=
  let optimisation_ := default SPEED optimisation in
  _ ← check E_INVALID_USER_ARGUMENT
        (holds_ExpressionName (ExpressionContext.root_node_name_ expression_context))
        "FilterClause AST would produce a column, not a bitset";
  root ← get_ExpressionName (ExpressionContext.root_node_name_ expression_context);
  Ok {| clause_info_ := set_input_columns input_columns ClauseInfo_default;
        expression_context_ := expression_context;
        root_node_name_ := root;
        optimisation_ := optimisation_ |}.

Section members.
Context {Key : Type}.

Definition structure_for_processing (self : t)
    (ranges_and_keys : list (RangesAndKey Key))
  : outcome (list (RangesAndKey Key) * list (list nat)) :=
  Ok (structure_by_row_slice ranges_and_keys).
End members.

Definition set_processing_config (self : t) (processing_config : ProcessingConfig.t) : t :=
  {| clause_info_ := clause_info_ self;
     expression_context_ :=
       {| ExpressionContext.root_node_name_ :=
            ExpressionContext.root_node_name_ (expression_context_ self);
          ExpressionContext.dynamic_schema_ :=
            ProcessingConfig.dynamic_schema_ processing_config |};
     root_node_name_ := root_node_name_ self;
     optimisation_ := optimisation_ self |}.


Definition join_schemas (self : t) (input_schemas : list OutputSchema) : outcome OutputSchema :=
  raise_rte "FilterClause::join_schemas should never be called".
End FilterClause.

Module ProjectClause.
Record t := mk {
  clause_info_ : ClauseInfo;
  output_column_ : string;
  expression_context_ : ExpressionContext.t
}.

Definition holds_column_producing (v : VariantNode) : bool :=
  match v with ExpressionName _ | ValueName _ => true | _ => false end.

Definition new (input_columns : gset string) (output_column : string)
    (expression_context : ExpressionContext.t) : outcome t :=
  _ ← check E_INVALID_USER_ARGUMENT
        (holds_column_producing (ExpressionContext.root_node_name_ expression_context))
        "ProjectClause AST would not produce a column";
  Ok {| clause_info_ := set_input_columns input_columns ClauseInfo_default;
        output_column_ := output_column;
        expression_context_ := expression_context |}.

Section members.
Context {Key : Type}.

Definition structure_for_processing (self : t)
    (ranges_and_keys : list (RangesAndKey Key))
  : outcome (list (RangesAndKey Key) * list (list nat)) :=
  Ok (structure_by_row_slice ranges_and_keys).
End members.

Definition join_schemas (self : t) (input_schemas : list OutputSchema) : outcome OutputSchema :=
  raise_rte "ProjectClause::join_schemas should never be called".
End ProjectClause.

Module PartitionClause.
Record t := mk {
  clause_info_ : ClauseInfo;
  processing_config_ : ProcessingConfig.t;
  grouping_column_ : string
}.

Definition new (grouping_column : string) : t :=
  {| clause_info_ := set_input_columns {[ grouping_column ]} ClauseInfo_default;
     processing_config_ := ProcessingConfig.default;
     grouping_column_ := grouping_column |}.

Section members.
Context {Key : Type}.

Definition structure_for_processing (self : t)
    (ranges_and_keys : list (RangesAndKey Key))
  : outcome (list (RangesAndKey Key) * list (list nat)) :=
  Ok (structure_by_row_slice ranges_and_keys).
End members.

(** [process].  The component manager, the processing unit and the three
    functions [process] calls are declared in headers other than
    clause.hpp; they are parameters here.  [partition_processing_segment]
    stands for the instance at the clause's [GrouperType] and
    [BucketizerType]. *)
Section process.
Context {ComponentManager ProcessingUnit : Type}.
Context (gather_entities : list EntityId → stateful ComponentManager ProcessingUnit).
Context (partition_processing_segment :
           ProcessingUnit → string → bool → outcome (list ProcessingUnit)).
Context (push_entities : ProcessingUnit → stateful ComponentManager (list EntityId)).

(** The loop over [partitioned_procs], appending to [output]. *)
Fixpoint push_partitioned (partitioned_procs : list ProcessingUnit)
    (output : list EntityId) : stateful ComponentManager (list EntityId) :=
  match partitioned_procs with
  | [] => mret output
  | partitioned_proc :: rest =>
      proc_entity_ids ← push_entities partitioned_proc;
      push_partitioned rest (output ++ proc_entity_ids)
  end.

Definition process (self : t) (entity_ids : list EntityId)
  : stateful ComponentManager (list EntityId) :=
  match entity_ids with
  | [] => mret []
  | _ :: _ =>
      proc ← gather_entities entity_ids;
      partitioned_procs ←
        lift_outcome (partition_processing_segment proc (grouping_column_ self)
                        (ProcessingConfig.dynamic_schema_ (processing_config_ self)));
      push_partitioned partitioned_procs []
  end.
End process.

Definition set_processing_config (self : t) (processing_config : ProcessingConfig.t) : t :=
  {| clause_info_ := clause_info_ self;
     processing_config_ := processing_config;
     grouping_column_ := grouping_column_ self |}.

Definition join_schemas (self : t) (input_schemas : list OutputSchema) : outcome OutputSchema :=
  raise_rte "GroupByClause::join_schemas should never be called".
End PartitionClause.

Record NamedAggregator := mkNamedAggregator {
  aggregation_operator_ : string;
  input_column_name_ : string;
  output_column_name_ : string
}.

Module AggregationClause.
Record t := mk {
  clause_info_ : ClauseInfo;
  processing_config_ : ProcessingConfig.t;
  grouping_column_ : string;
  str_ : string
}.

Section members.
Context {Key : Type}.

Definition structure_for_processing (self : t)
    (ranges_and_keys : list (RangesAndKey Key))
  : outcome (list (RangesAndKey Key) * list (list nat)) :=
  raise E_ASSERTION_FAILURE "AggregationClause should never be first in the pipeline".
End members.

Definition set_processing_config (self : t) (processing_config : ProcessingConfig.t) : t :=
  {| clause_info_ := clause_info_ self;
     processing_config_ := processing_config;
     grouping_column_ := grouping_column_ self;
     str_ := str_ self |}.

Definition join_schemas (self : t) (input_schemas : list OutputSchema) : outcome OutputSchema :=
  raise_rte "AggregationClause::join_schemas should never be called".
End AggregationClause.

(** [v.erase(v.begin(), v.begin() + n)]: drops the first [n] elements; the
    iterator range is valid only when [n] is at most [v.size()]. *)
Definition erase_prefix {A} (n : nat) (v : list A) : outcome (list A) :=
  if decide (n ≤ length v) then Ok (drop n v) else Undefined.

Module RemoveColumnPartitioningClause.
Record t := mk {
  clause_info_ : ClauseInfo;
  warning_shown : bool;
  incompletes_after_ : nat      (* size_t *)
}.

Definition new (incompletes_after : nat) : t :=
  {| clause_info_ := set_can_combine_with_column_selection false ClauseInfo_default;
     warning_shown := false;
     incompletes_after_ := incompletes_after |}.

Section members.
Context {Key : Type}.

Definition structure_for_processing (self : t)
    (ranges_and_keys : list (RangesAndKey Key))
  : outcome (list (RangesAndKey Key) * list (list nat)) :=
  ranges_and_keys ← erase_prefix (incompletes_after_ self) ranges_and_keys;
  Ok (structure_by_row_slice ranges_and_keys).
End members.

Definition modify_schema (self : t) (output_schema : OutputSchema) : outcome OutputSchema :=
  Ok output_schema.

Definition join_schemas (self : t) (input_schemas : list OutputSchema) : outcome OutputSchema :=
  raise_rte "RemoveColumnPartitioningClause::join_schemas should never be called".
End RemoveColumnPartitioningClause.

Module SplitClause.
Record t := mk {
  clause_info_ : ClauseInfo;
  rows_ : nat                   (* size_t *)
}.

Definition new (rows : nat) : t :=
  {| clause_info_ := ClauseInfo_default; rows_ := rows |}.

Section members.
Context {Key : Type}.

Definition structure_for_processing (self : t)
    (ranges_and_keys : list (RangesAndKey Key))
  : outcome (list (RangesAndKey Key) * list (list nat)) :=
  Ok (structure_by_row_slice ranges_and_keys).
End members.

Definition modify_schema (self : t) (output_schema : OutputSchema) : outcome OutputSchema :=
  Ok output_schema.

Definition join_schemas (self : t) (input_schemas : list OutputSchema) : outcome OutputSchema :=
  raise_rte "SplitClause::join_schemas should never be called".
End SplitClause.

Module SortClause.
Record t := mk {
  clause_info_ : ClauseInfo;
  column_ : string;
  incompletes_after_ : nat      (* size_t *)
}.

Definition new (column : string) (incompletes_after : nat) : t :=
  {| clause_info_ := ClauseInfo_default;
     column_ := column;
     incompletes_after_ := incompletes_after |}.

Section members.
Context {Key : Type}.

Definition structure_for_processing (self : t)
    (ranges_and_keys : list (RangesAndKey Key))
  : outcome (list (RangesAndKey Key) * list (list nat)) :=
  ranges_and_keys ← erase_prefix (incompletes_after_ self) ranges_and_keys;
  Ok (structure_by_row_slice ranges_and_keys).
End members.

Definition modify_schema (self : t) (output_schema : OutputSchema) : outcome OutputSchema :=
  Ok output_schema.

Definition join_schemas (self : t) (input_schemas : list OutputSchema) : outcome OutputSchema :=
  raise_rte "SortClause::join_schemas should never be called".
End SortClause.

Module MergeClause.
Record t := mk {
  clause_info_ : ClauseInfo;
  stream_id_ : StreamId;
  target_id_ : StreamId;
  add_symbol_column_ : bool;
  dynamic_schema_ : bool
}.

Section members.
Context {Key : Type}.

Definition structure_for_processing (self : t)
    (ranges_and_keys : list (RangesAndKey Key))
  : outcome (list (RangesAndKey Key) * list (list nat)) :=
  raise E_ASSERTION_FAILURE "MergeClause should never be first in the pipeline".
End members.

Definition join_schemas (self : t) (input_schemas : list OutputSchema) : outcome OutputSchema :=
  raise_rte "MergeClause::join_schemas should never be called".
End MergeClause.

Module ColumnStatsGenerationClause.
Record t := mk {
  clause_info_ : ClauseInfo;
  processing_config_ : ProcessingConfig.t
}.

Definition new (input_columns : gset string) : t :=
  {| clause_info_ :=
       set_can_combine_with_column_selection false
         (set_input_columns input_columns ClauseInfo_default);
     processing_config_ := ProcessingConfig.default |}.

Section members.
Context {Key : Type}.

Definition structure_for_processing (self : t)
    (ranges_and_keys : list (RangesAndKey Key))
  : outcome (list (RangesAndKey Key) * list (list nat)) :=
  Ok (structure_by_row_slice ranges_and_keys).
End members.

Definition set_processing_config (self : t) (processing_config : ProcessingConfig.t) : t :=
  {| clause_info_ := clause_info_ self; processing_config_ := processing_config |}.

(** "This clause is not used at the moment. Returning empty output schema so
    that unit tests can succeed." *)
Definition modify_schema (self : t) (output_schema : OutputSchema) : outcome OutputSchema :=
  Ok OutputSchema_empty.

Definition join_schemas (self : t) (input_schemas : list OutputSchema) : outcome OutputSchema :=
  raise_rte "ColumnStatsGenerationClause::join_schemas should never be called".
End ColumnStatsGenerationClause.

Module ConcatClause.
Record t := mk {
  clause_info_ : ClauseInfo;
  join_type_ : JoinType
}.

Section members.
Context {Key : Type}.

Definition structure_for_processing (self : t)
    (ranges_and_keys : list (RangesAndKey Key))
  : outcome (list (RangesAndKey Key) * list (list nat)) :=
  raise E_ASSERTION_FAILURE "ConcatClause should never be first in the pipeline".
End members.

Definition modify_schema (self : t) (output_schema : OutputSchema) : outcome OutputSchema :=
  Ok output_schema.
End ConcatClause.

Module RowRangeClause.
Inductive RowRangeType := HEAD | TAIL | RANGE.

Record t := mk {
  clause_info_ : ClauseInfo;
  row_range_type_ : RowRangeType;
  n_ : Z;                       (* int64_t, as passed into head or tail *)
  user_provided_start_ : Z;     (* int64_t *)
  user_provided_end_ : Z;       (* int64_t *)
  start_ : Z;                   (* uint64_t *)
  end_ : Z                      (* uint64_t *)
}.

(** [RowRangeClause(RowRangeType, int64_t)] *)
Definition new (row_range_type : RowRangeType) (n : Z) : t :=
  {| clause_info_ := set_input_structure ALL ClauseInfo_default;
     row_range_type_ := row_range_type;
     n_ := n;
     user_provided_start_ := 0;
     user_provided_end_ := 0;
     start_ := 0;
     end_ := 0 |}.


Definition set_start_and_end (self : t) (start finish : Z) : t :=
  {| clause_info_ := clause_info_ self;
     row_range_type_ := row_range_type_ self;
     n_ := n_ self;
     user_provided_start_ := user_provided_start_ self;
     user_provided_end_ := user_provided_end_ self;
     start_ := to_uint64 start;
     end_ := to_uint64 finish |}.

(** A negative bound counts from the end. *)
Definition from_end (total_rows bound : Z) : Z :=
  if (bound <? 0)%Z then (total_rows + bound)%Z else bound.

Definition clamp (lo hi x : Z) : Z := Z.max lo (Z.min x hi).

(** Modelled from the spec: [calculate_start_and_end] is declared in
    clause.hpp and defined in clause.cpp, which this development does not
    cover.  Section 4.6:
    HEAD gives [[0, min(n, total))], TAIL gives [[max(0, total - n), total)],
    RANGE uses the provided bounds, negative values counting from the end,
    clamped.  The results are stored in the [uint64_t] members [start_]
    and [end_]. *)
Definition calculate_start_and_end (self : t) (total_rows : Z) : t :=
  match row_range_type_ self with
  | HEAD => set_start_and_end self 0 (Z.min (n_ self) total_rows)
  | TAIL => set_start_and_end self (Z.max 0 (total_rows - n_ self)) total_rows
  | RANGE =>
      set_start_and_end self
        (clamp 0 total_rows (from_end total_rows (user_provided_start_ self)))
        (clamp 0 total_rows (from_end total_rows (user_provided_end_ self)))
  end.

(** Modelled from the spec: [set_processing_config] is defined in
    clause.cpp as well.  Section 4.6: on [set_processing_config(total_rows)]
    the clause normalises its interval. *)
Definition set_processing_config (self : t) (processing_config : ProcessingConfig.t) : t :=
  calculate_start_and_end self (ProcessingConfig.total_rows_ processing_config).



Definition modify_schema (self : t) (output_schema : OutputSchema) : outcome OutputSchema :=
  Ok output_schema.

Definition join_schemas (self : t) (input_schemas : list OutputSchema) : outcome OutputSchema :=
  raise_rte "RowRangeClause::join_schemas should never be called".
End RowRangeClause.

(** ** The polymorphic clause

    [Clause] is [folly::Poly<IClause>]; here the closed sum of the structs
    whose plan-level [structure_for_processing] the header defines, and
    [IClause.structure_for_processing] is the call through the interface
    ([folly::poly_call<0>]).  The header has three more clauses,
    [ResampleClause], [RowRangeClause] and [DateRangeClause]: it only
    declares their plan-level [structure_for_processing], the bodies are in
    clause.cpp, and they are not part of this sum.  What is proved for every
    [Clause] is proved for the eleven clauses below and says nothing about
    those three. *)
Inductive Clause :=
  | Passthrough (c : PassthroughClause.t)
  | Filter (c : FilterClause.t)
  | Project (c : ProjectClause.t)
  | Partition (c : PartitionClause.t)
  | Aggregation (c : AggregationClause.t)
  | RemoveColumnPartitioning (c : RemoveColumnPartitioningClause.t)
  | Split (c : SplitClause.t)
  | Sort (c : SortClause.t)
  | Merge (c : MergeClause.t)
  | ColumnStatsGeneration (c : ColumnStatsGenerationClause.t)
  | Concat (c : ConcatClause.t).

Module IClause.
Definition structure_for_processing {Key : Type} (self : Clause)
    (ranges_and_keys : list (RangesAndKey Key))
  : outcome (list (RangesAndKey Key) * list (list nat)) :=
  match self with
  | Passthrough c => PassthroughClause.structure_for_processing c ranges_and_keys
  | Filter c => FilterClause.structure_for_processing c ranges_and_keys
  | Project c => ProjectClause.structure_for_processing c ranges_and_keys
  | Partition c => PartitionClause.structure_for_processing c ranges_and_keys
  | Aggregation c => AggregationClause.structure_for_processing c ranges_and_keys
  | RemoveColumnPartitioning c =>
      RemoveColumnPartitioningClause.structure_for_processing c ranges_and_keys
  | Split c => SplitClause.structure_for_processing c ranges_and_keys
  | Sort c => SortClause.structure_for_processing c ranges_and_keys
  | Merge c => MergeClause.structure_for_processing c ranges_and_keys
  | ColumnStatsGeneration c =>
      ColumnStatsGenerationClause.structure_for_processing c ranges_and_keys
  | Concat c => ConcatClause.structure_for_processing c ranges_and_keys
  end.
End IClause.

(** ** read_options.hpp *)

(** Modelled from the spec: [OutputFormat] is declared in
    [entity/output_format.hpp], which this development does not cover.
    Section 6: output_format is one of PANDAS, ARROW, NATIVE. *)
Inductive OutputFormat := PANDAS | ARROW | NATIVE.

(** Modelled from the spec: [opt_false] is defined in
    [util/optional_defaults.hpp], which this development does not cover.
    Section 6: a boolean knob that is unset reads as false. *)
Definition opt_false (opt : option bool) : bool := default false opt.

Module ReadOptionsData.
Record t := mk {
  force_strings_to_fixed_ : option bool;
  force_strings_to_object_ : option bool;
  incompletes_ : option bool;
  dynamic_schema_ : option bool;
  allow_sparse_ : option bool;
  set_tz_ : option bool;
  optimise_string_memory_ : option bool;
  batch_throw_on_error_ : option bool;
  output_format_ : OutputFormat
}.

(** The default member initialisers: every [std::optional] empty. *)
Definition default : t :=
  {| force_strings_to_fixed_ := None;
     force_strings_to_object_ := None;
     incompletes_ := None;
     dynamic_schema_ := None;
     allow_sparse_ := None;
     set_tz_ := None;
     optimise_string_memory_ := None;
     batch_throw_on_error_ := None;
     output_format_ := PANDAS |}.
End ReadOptionsData.

Module ReadOptions.
Import ReadOptionsData.

(** [data_] is a [shared_ptr] to a [ReadOptionsData] made at construction;
    a [ReadOptions] value is identified with the data it points to. *)
Record t := mk { data_ : ReadOptionsData.t }.

Definition new : t := {| data_ := ReadOptionsData.default |}.

Definition set_force_strings_to_fixed (v : option bool) (self : t) : t :=
  let d := data_ self in
  mk (ReadOptionsData.mk v (force_strings_to_object_ d) (incompletes_ d)
        (dynamic_schema_ d) (allow_sparse_ d) (set_tz_ d)
        (optimise_string_memory_ d) (batch_throw_on_error_ d) (output_format_ d)).

Definition set_force_strings_to_object (v : option bool) (self : t) : t :=
  let d := data_ self in
  mk (ReadOptionsData.mk (force_strings_to_fixed_ d) v (incompletes_ d)
        (dynamic_schema_ d) (allow_sparse_ d) (set_tz_ d)
        (optimise_string_memory_ d) (batch_throw_on_error_ d) (output_format_ d)).

Definition set_incompletes (v : option bool) (self : t) : t :=
  let d := data_ self in
  mk (ReadOptionsData.mk (force_strings_to_fixed_ d) (force_strings_to_object_ d) v
        (dynamic_schema_ d) (allow_sparse_ d) (set_tz_ d)
        (optimise_string_memory_ d) (batch_throw_on_error_ d) (output_format_ d)).

Definition get_incompletes (self : t) : bool :=
  opt_false (incompletes_ (data_ self)).

Definition set_dynamic_schema (v : option bool) (self : t) : t :=
  let d := data_ self in
  mk (ReadOptionsData.mk (force_strings_to_fixed_ d) (force_strings_to_object_ d)
        (incompletes_ d) v (allow_sparse_ d) (set_tz_ d)
        (optimise_string_memory_ d) (batch_throw_on_error_ d) (output_format_ d)).

Definition set_allow_sparse (v : option bool) (self : t) : t :=
  let d := data_ self in
  mk (ReadOptionsData.mk (force_strings_to_fixed_ d) (force_strings_to_object_ d)
        (incompletes_ d) (dynamic_schema_ d) v (set_tz_ d)
        (optimise_string_memory_ d) (batch_throw_on_error_ d) (output_format_ d)).

Definition set_set_tz (v : option bool) (self : t) : t :=
  let d := data_ self in
  mk (ReadOptionsData.mk (force_strings_to_fixed_ d) (force_strings_to_object_ d)
        (incompletes_ d) (dynamic_schema_ d) (allow_sparse_ d) v
        (optimise_string_memory_ d) (batch_throw_on_error_ d) (output_format_ d)).

Definition set_optimise_string_memory (v : option bool) (self : t) : t :=
  let d := data_ self in
  mk (ReadOptionsData.mk (force_strings_to_fixed_ d) (force_strings_to_object_ d)
        (incompletes_ d) (dynamic_schema_ d) (allow_sparse_ d) (set_tz_ d)
        v (batch_throw_on_error_ d) (output_format_ d)).

Definition set_batch_throw_on_error (v : bool) (self : t) : t :=
  let d := data_ self in
  mk (ReadOptionsData.mk (force_strings_to_fixed_ d) (force_strings_to_object_ d)
        (incompletes_ d) (dynamic_schema_ d) (allow_sparse_ d) (set_tz_ d)
        (optimise_string_memory_ d) (Some v) (output_format_ d)).

Definition set_output_format (v : OutputFormat) (self : t) : t :=
  let d := data_ self in
  mk (ReadOptionsData.mk (force_strings_to_fixed_ d) (force_strings_to_object_ d)
        (incompletes_ d) (dynamic_schema_ d) (allow_sparse_ d) (set_tz_ d)
        (optimise_string_memory_ d) (batch_throw_on_error_ d) v).

Definition dynamic_schema (self : t) : option bool := dynamic_schema_ (data_ self).
Definition force_strings_to_object (self : t) : option bool :=
  force_strings_to_object_ (data_ self).
Definition force_strings_to_fixed (self : t) : option bool :=
  force_strings_to_fixed_ (data_ self).
Definition incompletes (self : t) : option bool := incompletes_ (data_ self).
Definition batch_throw_on_error (self : t) : option bool :=
  batch_throw_on_error_ (data_ self).
Definition output_format (self : t) : OutputFormat := output_format_ (data_ self).
End ReadOptions.

(** ** mongo_client.cpp *)

(** BSON elements, as far as the client reads them. *)
Inductive bson_value :=
  | b_int32 (value : Z)
  | b_int64 (value : Z)
  | b_string (value : string)
  | b_binary (bytes : list Byte.byte).

(** A document is its elements in order; [doc[name]] is the first element
    called [name], or an invalid element when there is none.  Reading an
    element as a type it does not have throws. *)
Definition document := list (string * bson_value).

Fixpoint element (doc : document) (name : string) : option bson_value :=
  match doc with
  | [] => None
  | (n, v) :: rest => if String.eqb n name then Some v else element rest name
  end.

Definition get_int32 (doc : document) (name : string) : outcome Z :=
  match element doc name with
  | Some (b_int32 v) => Ok v
  | _ => Throw (bsoncxx_exception name)
  end.

Definition get_int64 (doc : document) (name : string) : outcome Z :=
  match element doc name with
  | Some (b_int64 v) => Ok v
  | _ => Throw (bsoncxx_exception name)
  end.

Definition get_binary (doc : document) (name : string) : outcome (list Byte.byte) :=
  match element doc name with
  | Some (b_binary bytes) => Ok bytes
  | _ => Throw (bsoncxx_exception name)
  end.

Definition get_string_element (doc : document) (name : string) : outcome string :=
  match element doc name with
  | Some (b_string v) => Ok v
  | _ => Throw (bsoncxx_exception name)
  end.

(** A query document built by the client only ever holds string values; a
    stored document matches when each queried element is present as a
    string with that value.  [find] yields the matching documents in the
    order of the collection, [find_one] the first of them. *)
Definition matches (query : list (string * string)) (doc : document) : bool :=
  forallb (λ '(name, value),
             match element doc name with
             | Some (b_string v) => String.eqb v value
             | _ => false
             end) query.

Definition find (collection : list document) (query : list (string * string))
  : list document :=
  filter (λ doc, Is_true (matches query doc)) collection.

Definition find_one (collection : list document) (query : list (string * string))
  : option document :=
  head (find collection query).

#[global] Instance byte_eq_dec : EqDecision Byte.byte := Byte.byte_eq_dec.

#[global] Instance bson_value_eq_dec : EqDecision bson_value.
Proof. solve_decision. Defined.

(** Writes to a collection, as the server applies them once acknowledged.
    [insert_one] adds the document at the end.  [replace_one] puts the
    replacement in the place of the first document that matches the filter;
    when none matches, it adds the replacement at the end if [upsert] is set
    and does nothing otherwise.  The modified count is 1 when a document was
    replaced by a different one and 0 otherwise.  [delete_one] removes the
    first matching document, [delete_many] all of them; both report how many
    documents they removed. *)
Definition insert_one (collection : list document) (doc : document) : list document :=
  collection ++ [doc].

Fixpoint replace_first (collection : list document) (query : list (string * string))
    (replacement : document) : list document :=
  match collection with
  | [] => []
  | doc :: rest =>
      if matches query doc then replacement :: rest
      else doc :: replace_first rest query replacement
  end.

Definition replace_one (collection : list document) (query : list (string * string))
    (replacement : document) (upsert : bool) : list document * Z :=
  match find_one collection query with
  | Some doc =>
      (replace_first collection query replacement,
       if decide (doc = replacement) then 0%Z else 1%Z)
  | None => (if upsert then collection ++ [replacement] else collection, 0%Z)
  end.

Fixpoint delete_one (collection : list document) (query : list (string * string))
  : list document * Z :=
  match collection with
  | [] => ([], 0%Z)
  | doc :: rest =>
      if matches query doc then (rest, 1%Z)
      else let '(rest', n) := delete_one rest query in (doc :: rest', n)
  end.

Definition delete_many (collection : list document) (query : list (string * string))
  : list document * Z :=
  (filter (λ doc, ¬ Is_true (matches query doc)) collection,
   Z.of_nat (length (find collection query))).

(** Conversions of the client: [int64_t(x)], [uint32_t(x)], and
    [s.c_str()] handed to a [const char*] parameter, which ends at the first
    NUL character. *)
Definition to_int64 (z : Z) : Z := ((z + 2 ^ 63) mod 2 ^ 64 - 2 ^ 63)%Z.

Definition to_uint32 (z : Z) : Z := (z mod 2 ^ 32)%Z.

Definition in_int64 (z : Z) : Prop := (- 2 ^ 63 ≤ z < 2 ^ 63)%Z.

Fixpoint c_str (s : string) : string :=
  match s with
  | EmptyString => EmptyString
  | String a rest => if Ascii.eqb a Ascii.zero then EmptyString else String a (c_str rest)
  end.

Module UpdateResult.
Record t := mk { modified_count : option Z }.
End UpdateResult.

Module DeleteResult.
Record t := mk { deleted_count : option Z }.
End DeleteResult.

(** [IndexValue] is [std::variant<NumericIndex, StringIndex>]. *)
Inductive IndexValue :=
  | NumericIndex (n : Z)
  | StringIndex (s : string).

#[global] Instance IndexValue_eq_dec : EqDecision IndexValue.
Proof. solve_decision. Defined.

Module AtomKey.
Record t {KeyType : Type} := mk {
  id : StreamId;
  version_id : Z;
  creation_ts : Z;
  content_hash : Z;
  type : KeyType;
  start_index : IndexValue;
  end_index : IndexValue
}.
Arguments t KeyType : clear implicits.
Arguments mk {KeyType} _ _ _ _ _ _ _.

#[global] Instance eq_dec `{EqDecision KeyType} : EqDecision (t KeyType).
Proof. solve_decision. Defined.
End AtomKey.

Module RefKey.
Record t {KeyType : Type} := mk {
  id : StreamId;
  type : KeyType;
  old_type : bool
}.
Arguments t KeyType : clear implicits.
Arguments mk {KeyType} _ _ _.

#[global] Instance eq_dec `{EqDecision KeyType} : EqDecision (t KeyType).
Proof. solve_decision. Defined.
End RefKey.

(** [entity::VariantKey] is [std::variant<AtomKey, RefKey>]. *)
Inductive VariantKey {KeyType : Type} :=
  | atom_key (k : AtomKey.t KeyType)
  | ref_key (k : RefKey.t KeyType).
Arguments VariantKey KeyType : clear implicits.

#[global] Instance VariantKey_eq_dec `{EqDecision KeyType} : EqDecision (VariantKey KeyType).
Proof. solve_decision. Defined.

Definition variant_key_type {KeyType} (key : VariantKey KeyType) : KeyType :=
  match key with
  | atom_key k => AtomKey.type k
  | ref_key k => RefKey.type k
  end.

Definition variant_key_id {KeyType} (key : VariantKey KeyType) : StreamId :=
  match key with
  | atom_key k => AtomKey.id k
  | ref_key k => RefKey.id k
  end.

Definition holds_AtomKey {KeyType} (key : VariantKey KeyType) : bool :=
  match key with atom_key _ => true | ref_key _ => false end.

(** What a [mongocxx::client] reaches: the documents of each collection of
    each database, in their natural order.  A collection that was never
    written to is empty. *)
Definition client := gmap (string * string) (list document).

Definition collection_of (c : client) (database_name collection_name : string)
  : list document :=
  default [] (c !! (database_name, collection_name)).

Module StorageFailureSimulator.
(** The singleton of [storage/failure_simulation.hpp]: whether it is
    configured, and what [go(failure_type)] does, return or throw. *)
Record t {FailureType : Type} := mk {
  configured : bool;
  go : FailureType → outcome unit
}.
Arguments t FailureType : clear implicits.
End StorageFailureSimulator.

Module KeySegmentPair.
Record t {KeyType Segment : Type} := mk {
  variant_key : VariantKey KeyType;
  segment : Segment
}.
Arguments t : clear implicits.
Arguments mk {KeyType Segment} _ _.
End KeySegmentPair.

(** The key vocabulary comes from [entity/key.hpp] and the index descriptor
    from [entity/types.hpp]; the client uses of them only what is bound
    below: the enumeration [KeyType] with its member [VERSION], the two
    classifiers of key types, and the integer value of
    [IndexDescriptorImpl::Type::TIMESTAMP]. *)
Module detail.
Section detail.
Context {KeyType : Type} `{EqDecision KeyType}.
Context (VERSION : KeyType).
Context (is_string_key_type : KeyType → bool).
Context (TIMESTAMP : Z).

Definition stream_id_from_document (doc : document) (key_type : KeyType)
  : outcome StreamId :=
  if is_string_key_type key_type
  then StringId <$> get_string_element doc "stream_id"
  else NumericId <$> get_int64 doc "stream_id".

Definition atom_key_from_document (doc : document) (key_type : KeyType)
  : outcome (AtomKey.t KeyType) :=
  index_type ← get_int32 doc "index_type";
  bounds ←
    (if (index_type =? TIMESTAMP)%Z then
       start_index ← get_int64 doc "start_time";
       end_index ← get_int64 doc "end_time";
       Ok (NumericIndex start_index, NumericIndex end_index)
     else
       start_index ← get_string_element doc "start_key";
       end_index ← get_string_element doc "end_key";
       Ok (StringIndex start_index, StringIndex end_index));
  stream_id ← stream_id_from_document doc key_type;
  version_id ← get_int64 doc "version_id";
  creation_ts ← get_int64 doc "creation_ts";
  content_hash ← get_int64 doc "content_hash";
  Ok (AtomKey.mk stream_id version_id creation_ts content_hash key_type
        bounds.1 bounds.2).

Definition ref_key_from_document (doc : document) (key_type : KeyType)
  : outcome (RefKey.t KeyType) :=
  stream_id ← stream_id_from_document doc key_type;
  let is_old_type := bool_decide (key_type = VERSION) in
  Ok (RefKey.mk stream_id key_type is_old_type).

Definition variant_key_from_document (doc : document) (key : VariantKey KeyType)
  : outcome (VariantKey KeyType) :=
  let key_type := variant_key_type key in
  if holds_AtomKey key
  then atom_key <$> atom_key_from_document doc key_type
  else ref_key <$> ref_key_from_document doc key_type.

(** The writing side.  [key_type_value] is [static_cast<int32_t>(key.type())],
    [get_index_value_type] is [arcticdb::stream::get_index_value_type] as an
    [int32_t], [format_key] is [fmt::format("{}", key)] (the same text for a
    key and for the variant that holds it), and a segment is written through
    [Segment::calculate_size] and [Segment::write_to]. *)
Context (key_type_value : KeyType → Z).
Context (get_index_value_type : AtomKey.t KeyType → Z).
Context (format_key : VariantKey KeyType → string).
Context {Segment : Type}.
Context (Segment_calculate_size : Segment → Z).
Context (Segment_write_to : Segment → list Byte.byte).

Definition add_common_key_values (basic_builder : document) (key : VariantKey KeyType)
  : document :=
  let basic_builder :=
    basic_builder ++ [("key_type", b_int32 (key_type_value (variant_key_type key)))] in
  let basic_builder := basic_builder ++ [("key", b_string (c_str (format_key key)))] in
  match variant_key_id key with
  | StringId s => basic_builder ++ [("stream_id", b_string s)]
  | NumericId n => basic_builder ++ [("stream_id", b_int64 (to_int64 n))]
  end.

(** [std::get<NumericId>] and [std::get<StringId>] on an index value. *)
Definition get_NumericId (v : IndexValue) : outcome Z :=
  match v with
  | NumericIndex n => Ok n
  | StringIndex _ => Throw (runtime_error "bad_variant_access")
  end.

Definition get_StringId (v : IndexValue) : outcome string :=
  match v with
  | StringIndex s => Ok s
  | NumericIndex _ => Throw (runtime_error "bad_variant_access")
  end.

Definition add_atom_key_values (basic_builder : document) (key : AtomKey.t KeyType)
  : outcome document :=
  let basic_builder :=
    basic_builder ++ [("version_id", b_int64 (to_int64 (AtomKey.version_id key)))] in
  let basic_builder :=
    basic_builder ++ [("creation_ts", b_int64 (to_int64 (AtomKey.creation_ts key)))] in
  let basic_builder :=
    basic_builder ++ [("content_hash", b_int64 (to_int64 (AtomKey.content_hash key)))] in
  let index_type := get_index_value_type key in
  let basic_builder := basic_builder ++ [("index_type", b_int32 index_type)] in
  if (index_type =? TIMESTAMP)%Z then
    start_time ← get_NumericId (AtomKey.start_index key);
    let basic_builder := basic_builder ++ [("start_time", b_int64 (to_int64 start_time))] in
    end_time ← get_NumericId (AtomKey.end_index key);
    Ok (basic_builder ++ [("end_time", b_int64 (to_int64 end_time))])
  else
    start_key ← get_StringId (AtomKey.start_index key);
    let basic_builder := basic_builder ++ [("start_key", b_string start_key)] in
    end_key ← get_StringId (AtomKey.end_index key);
    Ok (basic_builder ++ [("end_key", b_string end_key)]).

(** The buffer of [build_document]: [total_size] zero bytes, over which the
    segment is written from the start.  Writing past the end of the buffer
    is undefined. *)
Definition written_buffer (total_size : Z) (written : list Byte.byte)
  : outcome (list Byte.byte) :=
  if decide (length written ≤ Z.to_nat total_size)
  then Ok (written ++ replicate (Z.to_nat total_size - length written) Byte.x00)
  else Undefined.

Definition build_document (kv : KeySegmentPair.t KeyType Segment) : outcome document :=
  let key := KeySegmentPair.variant_key kv in
  let segment := KeySegmentPair.segment kv in
  let total_size := Segment_calculate_size segment in
  buffer ← written_buffer total_size (Segment_write_to segment);
  let data := take (Z.to_nat (to_uint32 total_size)) buffer in
  let basic_builder := add_common_key_values [] key in
  basic_builder ←
    match key with
    | atom_key k => add_atom_key_values basic_builder k
    | ref_key _ => Ok basic_builder
    end;
  let basic_builder := basic_builder ++ [("total_size", b_int64 (to_int64 total_size))] in
  Ok (basic_builder ++ [("data", b_binary data)]).

(** Keys whose document holds all of the key: every integer of the key fits
    [int64_t], the stream id is a string exactly for a string key type, and
    the two index values are integers when the index type is TIMESTAMP and
    strings otherwise. *)
Definition stream_id_encodable (id : StreamId) (key_type : KeyType) : Prop :=
  match id with
  | StringId _ => is_string_key_type key_type = true
  | NumericId n => is_string_key_type key_type = false ∧ in_int64 n
  end.

Definition atom_key_encodable (key : AtomKey.t KeyType) : Prop :=
  stream_id_encodable (AtomKey.id key) (AtomKey.type key) ∧
  in_int64 (AtomKey.version_id key) ∧
  in_int64 (AtomKey.creation_ts key) ∧
  in_int64 (AtomKey.content_hash key) ∧
  match AtomKey.start_index key, AtomKey.end_index key with
  | NumericIndex s, NumericIndex e =>
      get_index_value_type key = TIMESTAMP ∧ in_int64 s ∧ in_int64 e
  | StringIndex _, StringIndex _ => get_index_value_type key ≠ TIMESTAMP
  | _, _ => False
  end.
End detail.
End detail.

Module MongoClientImpl.
(** [pool_] is the connection pool: [acquire] stands for what
    [ExponentialBackoff(100, 2000).go(try_get)] yields, a client, an empty
    optional, or the exception that ends the retries. *)
Record t := mk {
  connection_string_ : string;
  acquire : outcome (option client)
}.

Definition get_client (self : t) : outcome client :=
  c ← acquire self;
  _ ← check E_ASSERTION_FAILURE (bool_decide (is_Some c)) "Pool did not return a client";
  match c with
  | Some c => Ok c
  | None => Undefined
  end.

Section members.
Context {KeyType : Type} `{EqDecision KeyType}.
Context (VERSION : KeyType).
Context (is_string_key_type is_ref_key_class : KeyType → bool).
Context (TIMESTAMP : Z).
(** [fmt::format("{}", key)] and [fmt::format("{}", stream_id)] *)
Context (format_key : VariantKey KeyType → string).
Context (format_stream_id : StreamId → string).
(** [Segment::from_bytes(src, readable_size, copy_data)] *)
Context {Segment : Type}.
Context (Segment_from_bytes : list Byte.byte → Z → bool → outcome Segment).
Context {FailureType : Type} (READ : FailureType).
Context (simulator : StorageFailureSimulator.t FailureType).

(** The query of [read_segment]: the formatted key and the formatted
    stream id. *)
Definition read_query (key : VariantKey KeyType) : list (string * string) :=
  [("key", format_key key); ("stream_id", format_stream_id (variant_key_id key))].

Definition read_segment (self : t) (database_name collection_name : string)
    (key : VariantKey KeyType)
  : outcome (option (KeySegmentPair.t KeyType Segment)) :=
  client ← get_client self;
  let collection := collection_of client database_name collection_name in
  let stream_id := variant_key_id key in
  _ ← (if StorageFailureSimulator.configured simulator
       then StorageFailureSimulator.go simulator READ
       else Ok tt);
  let result :=
    find_one collection
      [("key", format_key key); ("stream_id", format_stream_id stream_id)] in
  match result with
  | Some doc =>
      size ← get_int64 doc "total_size";
      stored_key ← detail.variant_key_from_document VERSION is_string_key_type
                      TIMESTAMP doc key;
      _ ← check E_ASSERTION_FAILURE (bool_decide (stored_key = key))
            "Key mismatch: {} != {}";
      bytes ← get_binary doc "data";
      segment ← Segment_from_bytes bytes (to_uint64 size) true;
      Ok (Some (KeySegmentPair.mk stored_key segment))
  | None => Ok None
  end.

Definition key_exists (self : t) (database_name collection_name : string)
    (key : VariantKey KeyType) : outcome bool :=
  client ← get_client self;
  let collection := collection_of client database_name collection_name in
  let result := find_one collection [("key", format_key key)] in
  Ok (bool_decide (is_Some result)).

(** The decoding of one document in the loop of [list_keys]. *)
Definition key_from_document (key_type : KeyType) (doc : document)
  : outcome (VariantKey KeyType) :=
  if negb (is_ref_key_class key_type)
  then atom_key <$> detail.atom_key_from_document is_string_key_type TIMESTAMP
                      doc key_type
  else ref_key <$> detail.ref_key_from_document VERSION is_string_key_type
                     doc key_type.

Definition list_keys (self : t) (database_name collection_name : string)
    (key_type : KeyType) (prefix : option string)
  : outcome (list (VariantKey KeyType)) :=
  client ← get_client self;
  let collection := collection_of client database_name collection_name in
  let has_prefix :=
    match prefix with
    | Some p => negb (String.eqb p "")
    | None => false
    end in
  let cursor :=
    if has_prefix
    then find collection [("stream_id", default "" prefix)]
    else find collection [] in
  mapM (key_from_document key_type) cursor.

(** The client after a write: the pool hands out clients that see [server]. *)
Definition with_server (self : t) (server : client) : t :=
  mk (connection_string_ self) (Ok (Some server)).

Context (key_type_value : KeyType → Z).
Context (get_index_value_type : AtomKey.t KeyType → Z).
Context (Segment_calculate_size : Segment → Z).
Context (Segment_write_to : Segment → list Byte.byte).

(** [write_segment], [update_segment] and [remove_keyvalue] return their
    result together with the client as the write leaves it. *)
Definition write_segment (self : t) (database_name collection_name : string)
    (key_seg : KeySegmentPair.t KeyType Segment) : outcome (bool * t) :=
  client ← get_client self;
  doc ← detail.build_document TIMESTAMP key_type_value get_index_value_type format_key
           Segment_calculate_size Segment_write_to key_seg;
  let collection := collection_of client database_name collection_name in
  if negb (holds_AtomKey (KeySegmentPair.variant_key key_seg)) then
    let '(collection, _) :=
      replace_one collection
        [("key", format_key (KeySegmentPair.variant_key key_seg))] doc true in
    Ok (true, with_server self (<[(database_name, collection_name) := collection]> client))
  else
    let collection := insert_one collection doc in
    Ok (true, with_server self (<[(database_name, collection_name) := collection]> client)).

Definition update_segment (self : t) (database_name collection_name : string)
    (key_seg : KeySegmentPair.t KeyType Segment) (upsert : bool)
  : outcome (UpdateResult.t * t) :=
  client ← get_client self;
  doc ← detail.build_document TIMESTAMP key_type_value get_index_value_type format_key
           Segment_calculate_size Segment_write_to key_seg;
  let collection := collection_of client database_name collection_name in
  let '(collection, modified_count) :=
    replace_one collection
      [("key", format_key (KeySegmentPair.variant_key key_seg))] doc upsert in
  Ok (UpdateResult.mk (Some modified_count),
      with_server self (<[(database_name, collection_name) := collection]> client)).

Definition remove_keyvalue (self : t) (database_name collection_name : string)
    (key : VariantKey KeyType) : outcome (DeleteResult.t * t) :=
  client ← get_client self;
  let collection := collection_of client database_name collection_name in
  let query :=
    [("key", format_key key); ("stream_id", format_stream_id (variant_key_id key))] in
  let '(collection, deleted_count) :=
    if negb (holds_AtomKey key) then delete_many collection query
    else delete_one collection query in
  Ok (DeleteResult.mk (Some deleted_count),
      with_server self (<[(database_name, collection_name) := collection]> client)).

(** [drop_collection]: [drop_error] is the exception that [collection.drop()]
    throws, if it throws; the handler logs it and returns. *)
Definition drop_collection (drop_error : option exception) (self : t)
    (database_name collection_name : string) : outcome t :=
  client ← get_client self;
  match drop_error with
  | None => Ok (with_server self (delete (database_name, collection_name) client))
  | Some _ => Ok (with_server self client)
  end.

(** A segment that the codec writes in exactly its announced size, which
    fits [uint32_t], and reads back from those bytes. *)
Definition segment_round_trips (segment : Segment) : Prop :=
  (0 ≤ Segment_calculate_size segment < 2 ^ 32)%Z ∧
  length (Segment_write_to segment) = Z.to_nat (Segment_calculate_size segment) ∧
  Segment_from_bytes (Segment_write_to segment) (Segment_calculate_size segment) true
  = Ok segment.

(** A key whose formatted text has no NUL character, so that [c_str] keeps
    all of it, and whose stream id is a string that formats as itself. *)
Definition key_text_plain (key : VariantKey KeyType) : Prop :=
  c_str (format_key key) = format_key key ∧
  ∃ sid, variant_key_id key = StringId sid ∧ format_stream_id (StringId sid) = sid.
End members.
End MongoClientImpl.

(** ** Calls on read options *)

(** The setters of [ReadOptions], as values, and the member each assigns. *)
Module ReadOptionsCall.
Inductive t :=
  | set_force_strings_to_fixed (v : option bool)
  | set_force_strings_to_object (v : option bool)
  | set_incompletes (v : option bool)
  | set_dynamic_schema (v : option bool)
  | set_allow_sparse (v : option bool)
  | set_set_tz (v : option bool)
  | set_optimise_string_memory (v : option bool)
  | set_batch_throw_on_error (v : bool)
  | set_output_format (v : OutputFormat).

Definition run (call : t) (self : ReadOptions.t) : ReadOptions.t :=
  match call with
  | set_force_strings_to_fixed v => ReadOptions.set_force_strings_to_fixed v self
  | set_force_strings_to_object v => ReadOptions.set_force_strings_to_object v self
  | set_incompletes v => ReadOptions.set_incompletes v self
  | set_dynamic_schema v => ReadOptions.set_dynamic_schema v self
  | set_allow_sparse v => ReadOptions.set_allow_sparse v self
  | set_set_tz v => ReadOptions.set_set_tz v self
  | set_optimise_string_memory v => ReadOptions.set_optimise_string_memory v self
  | set_batch_throw_on_error v => ReadOptions.set_batch_throw_on_error v self
  | set_output_format v => ReadOptions.set_output_format v self
  end.

Inductive member :=
  | force_strings_to_fixed_ | force_strings_to_object_ | incompletes_
  | dynamic_schema_ | allow_sparse_ | set_tz_ | optimise_string_memory_
  | batch_throw_on_error_ | output_format_.

#[global] Instance member_eq_dec : EqDecision member.
Proof. solve_decision. Defined.

Definition assigns (call : t) : member :=
  match call with
  | set_force_strings_to_fixed _ => force_strings_to_fixed_
  | set_force_strings_to_object _ => force_strings_to_object_
  | set_incompletes _ => incompletes_
  | set_dynamic_schema _ => dynamic_schema_
  | set_allow_sparse _ => allow_sparse_
  | set_set_tz _ => set_tz_
  | set_optimise_string_memory _ => optimise_string_memory_
  | set_batch_throw_on_error _ => batch_throw_on_error_
  | set_output_format _ => output_format_
  end.

Definition run_all (calls : list t) (self : ReadOptions.t) : ReadOptions.t :=
  foldl (λ options call, run call options) self calls.

(** The value a call assigns, and the value a member holds. *)
Definition assigned (call : t) : option bool + OutputFormat :=
  match call with
  | set_force_strings_to_fixed v | set_force_strings_to_object v | set_incompletes v
  | set_dynamic_schema v | set_allow_sparse v | set_set_tz v
  | set_optimise_string_memory v => inl v
  | set_batch_throw_on_error v => inl (Some v)
  | set_output_format v => inr v
  end.

Definition value_of (m : member) (self : ReadOptions.t) : option bool + OutputFormat :=
  let data := ReadOptions.data_ self in
  match m with
  | force_strings_to_fixed_ => inl (ReadOptionsData.force_strings_to_fixed_ data)
  | force_strings_to_object_ => inl (ReadOptionsData.force_strings_to_object_ data)
  | incompletes_ => inl (ReadOptionsData.incompletes_ data)
  | dynamic_schema_ => inl (ReadOptionsData.dynamic_schema_ data)
  | allow_sparse_ => inl (ReadOptionsData.allow_sparse_ data)
  | set_tz_ => inl (ReadOptionsData.set_tz_ data)
  | optimise_string_memory_ => inl (ReadOptionsData.optimise_string_memory_ data)
  | batch_throw_on_error_ => inl (ReadOptionsData.batch_throw_on_error_ data)
  | output_format_ => inr (ReadOptionsData.output_format_ data)
  end.
End ReadOptionsCall.

(** [ReadOptions] with its [shared_ptr] kept as a pointer: the store maps
    each allocated [ReadOptionsData] to its contents, a [ReadOptions] object
    is the address held in its [data_], the default constructor allocates a
    fresh [ReadOptionsData], and the implicit copy constructor copies the
    pointer. *)
Module SharedReadOptions.
Definition store := gmap nat ReadOptionsData.t.

Record t := mk { data_ : nat }.

Definition new (heap : store) : t * store :=
  let address := fresh (dom heap) in
  (mk address, <[address := ReadOptionsData.default]> heap).

Definition copy (self : t) : t := mk (data_ self).

Definition run (call : ReadOptionsCall.t) (self : t) (heap : store) : store :=
  alter (λ data, ReadOptions.data_ (ReadOptionsCall.run call (ReadOptions.mk data)))
    (data_ self) heap.

Definition view (self : t) (heap : store) : option ReadOptions.t :=
  ReadOptions.mk <$> heap !! data_ self.
End SharedReadOptions.

(** ** Sample data

    Concrete values on which the statements below are exercised. *)

(** A plan of two row slices handed over in descending row order. *)
Definition descending_plan : list (RangesAndKey string) :=
  [ mkRangesAndKey (mkRange 100 200) (mkRange 0 5) "second";
    mkRangesAndKey (mkRange 0 100) (mkRange 0 5) "first" ].

Module Sample.
Inductive KeyType := TABLE_DATA | TABLE_INDEX | VERSION | VERSION_REF.

#[global] Instance KeyType_eq_dec : EqDecision KeyType.
Proof. solve_decision. Defined.

Definition is_string_key_type (key_type : KeyType) : bool := true.

Definition is_ref_key_class (key_type : KeyType) : bool :=
  match key_type with VERSION_REF => true | _ => false end.

Definition TIMESTAMP : Z := 84.

Definition format_stream_id (id : StreamId) : string :=
  match id with
  | StringId s => s
  | NumericId n => pretty n
  end.

Definition format_key (key : VariantKey KeyType) : string :=
  match key with
  | atom_key k => "d:" +:+ format_stream_id (AtomKey.id k) +:+ ":" +:+ pretty (AtomKey.version_id k)
  | ref_key k => "r:" +:+ format_stream_id (RefKey.id k)
  end.

(** A segment is kept as its bytes; decoding checks the announced size. *)
Definition Segment := list Byte.byte.

Definition Segment_from_bytes (bytes : list Byte.byte) (size : Z) (copy_data : bool)
  : outcome Segment :=
  if (size =? Z.of_nat (length bytes))%Z then Ok bytes
  else Throw (runtime_error "segment size").

Inductive FailureType := WRITE | READ.

Definition simulator : StorageFailureSimulator.t FailureType :=
  StorageFailureSimulator.mk FailureType false
    (λ _, Throw (storage_failure "simulated")).

Definition sym_ref : VariantKey KeyType :=
  ref_key (RefKey.mk (StringId "sym") VERSION_REF false).

Definition sym_ref_old : VariantKey KeyType :=
  ref_key (RefKey.mk (StringId "sym") VERSION_REF true).

Definition absent_ref : VariantKey KeyType :=
  ref_key (RefKey.mk (StringId "absent") VERSION_REF false).

Definition sym_doc : document :=
  [ ("key_type", b_int32 3); ("key", b_string "r:sym"); ("stream_id", b_string "sym");
    ("total_size", b_int64 2); ("data", b_binary [Byte.x01; Byte.x02]) ].

Definition other_doc : document :=
  [ ("key_type", b_int32 3); ("key", b_string "r:other"); ("stream_id", b_string "other");
    ("total_size", b_int64 1); ("data", b_binary [Byte.x07]) ].

Definition server : client := {[ ("arcticdb", "lib") := [other_doc; sym_doc] ]}.

Definition mongo : MongoClientImpl.t :=
  MongoClientImpl.mk "mongodb://localhost:27017/?ssl=false" (Ok (Some server)).

Definition read_segment :=
  MongoClientImpl.read_segment VERSION is_string_key_type TIMESTAMP format_key
    format_stream_id Segment_from_bytes READ simulator.

Definition list_keys :=
  MongoClientImpl.list_keys VERSION is_string_key_type is_ref_key_class TIMESTAMP.

(** A small component manager: the bundles published so far, each one column
    of values; the id of a bundle is its position.  Partitioning separates
    the even values from the odd ones. *)
Definition ComponentManager := list (list Z).

Definition gather_entities (entity_ids : list EntityId)
  : stateful ComponentManager (list Z) :=
  λ cm, (Ok (concat (omap (λ id, cm !! Z.to_nat id) entity_ids)), cm).

Definition partition_processing_segment (proc : list Z) (column : string)
    (dynamic_schema : bool) : outcome (list (list Z)) :=
  Ok [ filter (λ v, Is_true (Z.even v)) proc; filter (λ v, Is_true (Z.odd v)) proc ].

Definition push_entities (proc : list Z) : stateful ComponentManager (list EntityId) :=
  λ cm, (Ok [Z.of_nat (length cm)], cm ++ [proc]).

Definition partition_process :=
  PartitionClause.process gather_entities partition_processing_segment push_entities.

(** The writing side of the sample client. *)
Definition key_type_value (key_type : KeyType) : Z :=
  match key_type with
  | TABLE_DATA => 2
  | TABLE_INDEX => 3
  | VERSION => 4
  | VERSION_REF => 9
  end.

Definition get_index_value_type (key : AtomKey.t KeyType) : Z :=
  match AtomKey.start_index key with
  | NumericIndex _ => TIMESTAMP
  | StringIndex _ => 83
  end.

Definition Segment_calculate_size (segment : Segment) : Z := Z.of_nat (length segment).

Definition Segment_write_to (segment : Segment) : list Byte.byte := segment.

Definition write_segment :=
  MongoClientImpl.write_segment TIMESTAMP format_key key_type_value get_index_value_type
    Segment_calculate_size Segment_write_to.

Definition update_segment :=
  MongoClientImpl.update_segment TIMESTAMP format_key key_type_value get_index_value_type
    Segment_calculate_size Segment_write_to.

Definition remove_keyvalue :=
  MongoClientImpl.remove_keyvalue (KeyType := KeyType) format_key format_stream_id.

Definition key_exists := MongoClientImpl.key_exists (KeyType := KeyType) format_key.

Definition price_atom : AtomKey.t KeyType :=
  AtomKey.mk (StringId "price") 7 1700000000 42 TABLE_DATA
    (NumericIndex 0) (NumericIndex 100).

Definition price_data : VariantKey KeyType := atom_key price_atom.

Definition numbered_data : VariantKey KeyType :=
  atom_key (AtomKey.mk (NumericId 5) 1 1700000000 43 TABLE_DATA
              (NumericIndex 0) (NumericIndex 100)).

Definition volume_atom : AtomKey.t KeyType :=
  AtomKey.mk (StringId "volume") 8 1700000001 44 TABLE_DATA
    (NumericIndex 100) (NumericIndex 200).

Definition volume_data : VariantKey KeyType := atom_key volume_atom.

(** The sample client once [price_data] has been written to the collection
    arcticdb/data. *)
Definition priced_mongo : MongoClientImpl.t :=
  match write_segment mongo "arcticdb" "data"
          (KeySegmentPair.mk price_data [Byte.x01; Byte.x02]) with
  | Ok (_, self') => self'
  | _ => mongo
  end.
End Sample.

(** * Properties *)

(** ** The structuring primitive *)

Lemma elem_of_concat {A} (ls : list (list A)) (x : A) :
  x ∈ concat ls ↔ ∃ l, l ∈ ls ∧ x ∈ l.
Proof.
  rewrite list_elem_of_In, in_concat.
  split; intros (l & Hl & Hx); exists l; by rewrite ?list_elem_of_In in *.
Qed.

Section structuring_facts.
Context {Key : Type}.
Implicit Types (rk : RangesAndKey Key) (plan : list (RangesAndKey Key)).
Implicit Types (groups : list (RowRange * list nat)).

#[local] Instance slice_le_total : Total (@slice_le Key).
Proof.
  intros a b. unfold slice_le, key_leb.
  destruct (slice_key a) as [a1 a2], (slice_key b) as [b1 b2]; simpl.
  destruct (Z.ltb_spec a1 b1); [by left|].
  destruct (Z.ltb_spec b1 a1); [by right|].
  assert (a1 = b1) as -> by lia. rewrite Z.eqb_refl. simpl.
  destruct (Z.leb_spec a2 b2); [by left|].
  right. apply Z.leb_le. lia.
Qed.

Lemma add_to_group_indexes rr i groups :
  concat (add_to_group rr i groups).*2 ≡ₚ i :: concat groups.*2.
Proof.
  induction groups as [|[rr' g] rest IH]; simpl; [done|].
  case_decide; simpl.
  - rewrite <- (assoc_L (++)). simpl. by rewrite <- Permutation_middle.
  - rewrite IH. by rewrite <- Permutation_middle.
Qed.

Lemma add_to_group_labels rr i groups :
  ∀ r, r ∈ (add_to_group rr i groups).*1 ↔ r = rr ∨ r ∈ groups.*1.
Proof.
  induction groups as [|[rr' g] rest IH]; intros r; simpl.
  - rewrite list_elem_of_singleton, elem_of_nil. tauto.
  - case_decide; simpl.
    + subst. rewrite !elem_of_cons. tauto.
    + rewrite !elem_of_cons, IH. tauto.
Qed.

Lemma add_to_group_well_grouped plan rr i groups rk :
  plan !! i = Some rk → row_range_ rk = rr →
  well_grouped plan groups → well_grouped plan (add_to_group rr i groups).
Proof.
  intros Hi Hrr [Hnd Hall]. induction groups as [|[rr' g] rest IH]; simpl.
  - split; [apply NoDup_singleton|].
    repeat constructor; simpl; [done|].
    intros j ->%list_elem_of_singleton. by rewrite Hi, <- Hrr.
  - simpl in Hnd. apply NoDup_cons in Hnd as [Hnotin Hnd].
    apply Forall_cons in Hall as [[Hne Hg] Hall].
    case_decide as Heq; simpl.
    + subst rr'. split; [by apply NoDup_cons|].
      constructor; [|done]. simpl. split; [by destruct g|].
      intros j [Hj | ->%list_elem_of_singleton]%elem_of_app; [by apply Hg|].
      by rewrite Hi, <- Hrr.
    + destruct (IH Hnd Hall) as [Hnd' Hall']. split.
      * apply NoDup_cons. split; [|done].
        rewrite add_to_group_labels. simpl. intros [?|?]; [congruence|done].
      * by constructor.
Qed.

Lemma group_from_indexes i plan groups :
  concat (group_from i plan groups).*2 ≡ₚ concat groups.*2 ++ seq i (length plan).
Proof.
  revert i groups. induction plan as [|rk rest IH]; intros i groups; simpl.
  - by rewrite (right_id_L [] (++)).
  - rewrite IH, add_to_group_indexes. by rewrite <- Permutation_middle.
Qed.

Lemma group_from_well_grouped plan i suffix groups :
  drop i plan = suffix →
  well_grouped plan groups → well_grouped plan (group_from i suffix groups).
Proof.
  revert i groups. induction suffix as [|rk rest IH]; intros i groups Hdrop Hwg; simpl.
  - done.
  - assert (plan !! i = Some rk) as Hi.
    { by rewrite <- (Nat.add_0_r i), <- lookup_drop, Hdrop. }
    apply (IH (S i)).
    + rewrite (drop_S _ _ _ Hi) in Hdrop. congruence.
    + by apply add_to_group_well_grouped with rk.
Qed.

Lemma group_by_row_range_indexes plan :
  concat (group_by_row_range plan) ≡ₚ seq 0 (length plan).
Proof. unfold group_by_row_range. by rewrite group_from_indexes. Qed.

Lemma group_by_row_range_well_grouped plan :
  well_grouped plan (group_from 0 plan []).
Proof.
  apply group_from_well_grouped; [done|].
  split; [constructor|constructor].
Qed.

(** What [structure_by_row_slice] returns: the plan sorted by
    [(row_range.start, col_range.start)] and a partition of its indexes
    into non-empty groups, one per row range. *)
Lemma structure_by_row_slice_spec plan :
  let (sorted, groups) := structure_by_row_slice plan in
  sorted ≡ₚ plan ∧
  Sorted slice_le sorted ∧
  concat groups ≡ₚ seq 0 (length sorted) ∧
  ∃ labelled, groups = labelled.*2 ∧ well_grouped sorted labelled.
Proof.
  unfold structure_by_row_slice. split_and!.
  - apply merge_sort_Permutation.
  - apply (Sorted_merge_sort _).
  - apply group_by_row_range_indexes.
  - eexists. split; [done|]. apply group_by_row_range_well_grouped.
Qed.

Lemma structure_by_row_slice_lookup plan g i :
  g ∈ (structure_by_row_slice plan).2 → i ∈ g →
  ∃ rk, (structure_by_row_slice plan).1 !! i = Some rk ∧ rk ∈ plan.
Proof.
  intros Hg Hi.
  pose proof (structure_by_row_slice_spec plan) as Hspec.
  destruct (structure_by_row_slice plan) as [sorted groups]; simpl in *.
  destruct Hspec as (Hperm & _ & Hidx & _).
  assert (i ∈ seq 0 (length sorted)) as Hin.
  { rewrite <- Hidx. apply elem_of_concat. eauto. }
  apply elem_of_seq in Hin as [_ Hlt]. simpl in Hlt.
  destruct (lookup_lt_is_Some_2 sorted i Hlt) as [rk Hrk].
  exists rk. split; [done|]. rewrite <- Hperm. by eapply list_elem_of_lookup_2.
Qed.
End structuring_facts.

(** ** Clauses that cannot be first *)

(** C1.  For every plan, the plan-level [structure_for_processing] of an
    [AggregationClause], of a [MergeClause] and of a [ConcatClause], called
    through the clause interface, raises [E_ASSERTION_FAILURE] (with the
    message "... should never be first in the pipeline"); no grouping is
    returned. *)
Theorem C1_invalid_first_clause_raises {Key : Type} (plan : list (RangesAndKey Key)) :
  (∀ c, IClause.structure_for_processing (Aggregation c) plan
        = Throw (ArcticException E_ASSERTION_FAILURE
                   "AggregationClause should never be first in the pipeline")) ∧
  (∀ c, IClause.structure_for_processing (Merge c) plan
        = Throw (ArcticException E_ASSERTION_FAILURE
                   "MergeClause should never be first in the pipeline")) ∧
  (∀ c, IClause.structure_for_processing (Concat c) plan
        = Throw (ArcticException E_ASSERTION_FAILURE
                   "ConcatClause should never be first in the pipeline")).
Proof. split_and!; intros c; reflexivity. Qed.

(** ** Row ranges *)

Section row_range.
Import RowRangeClause.






End row_range.

(** ** Passthrough and Sort structuring *)

Example passthrough_descending_plan :
  PassthroughClause.structure_for_processing PassthroughClause.default descending_plan
  = Ok ([ mkRangesAndKey (mkRange 0 100) (mkRange 0 5) "first";
          mkRangesAndKey (mkRange 100 200) (mkRange 0 5) "second" ],
        [[0]; [1]]).
Proof. reflexivity. Qed.

(** C3, as stated, fails: on [descending_plan] the plan-level
    [structure_for_processing] of [PassthroughClause] does not leave the
    plan in the caller's order. *)
Lemma C3_passthrough_reorders_plan :
  ¬ ∃ groups,
      PassthroughClause.structure_for_processing PassthroughClause.default descending_plan
      = Ok (descending_plan, groups).
Proof. intros [groups H]. vm_compute in H. discriminate H. Qed.

(** C3, amended.  The plan-level [structure_for_processing] of
    [PassthroughClause] is [structure_by_row_slice]: it never fails, it
    leaves the plan as a permutation of the caller's plan sorted by
    [(row_range.start, col_range.start)], and it returns a partition of the
    indexes of that plan into non-empty groups, one per row range.  The
    entity-id-level [structure_for_processing] returns the incoming
    grouping exactly as given. *)
Theorem C3_passthrough_structuring {Key : Type} (self : PassthroughClause.t)
    (plan : list (RangesAndKey Key)) (entity_ids_vec : list (list EntityId)) :
  (∃ sorted groups,
      PassthroughClause.structure_for_processing self plan = Ok (sorted, groups) ∧
      (sorted, groups) = structure_by_row_slice plan ∧
      sorted ≡ₚ plan ∧
      Sorted slice_le sorted ∧
      concat groups ≡ₚ seq 0 (length plan) ∧
      ∃ labelled, groups = labelled.*2 ∧ well_grouped sorted labelled) ∧
  PassthroughClause.structure_for_processing_ids self entity_ids_vec = entity_ids_vec.
Proof.
  split; [|reflexivity].
  pose proof (structure_by_row_slice_spec plan) as Hspec.
  unfold PassthroughClause.structure_for_processing.
  destruct (structure_by_row_slice plan) as [sorted groups].
  destruct Hspec as (Hperm & Hsorted & Hidx & Hlab).
  exists sorted, groups. split_and!; try done.
  by rewrite <- Hperm.
Qed.

(** C6.  When [incompletes_after_] is at most the length of the plan, the
    plan-level [structure_for_processing] of [SortClause] returns, erases
    the first [incompletes_after_] entries and structures what remains by
    row slice: the plan it leaves is a sorted permutation of the remaining
    entries, the groups partition the indexes of that plan, every index in
    a group denotes one of the remaining entries, and, when the plan has no
    repeated entry, none of the skipped entries. *)
Theorem C6_sort_skips_incomplete_prefix {Key : Type} (self : SortClause.t)
    (plan : list (RangesAndKey Key)) :
  let n := SortClause.incompletes_after_ self in
  n ≤ length plan →
  ∃ sorted groups,
    SortClause.structure_for_processing self plan = Ok (sorted, groups) ∧
    (sorted, groups) = structure_by_row_slice (drop n plan) ∧
    sorted ≡ₚ drop n plan ∧
    Sorted slice_le sorted ∧
    concat groups ≡ₚ seq 0 (length plan - n) ∧
    (∃ labelled, groups = labelled.*2 ∧ well_grouped sorted labelled) ∧
    (∀ g i, g ∈ groups → i ∈ g →
       ∃ rk, sorted !! i = Some rk ∧ rk ∈ drop n plan ∧
             (NoDup plan → rk ∉ take n plan)).
Proof.
  intros n Hn.
  unfold SortClause.structure_for_processing, erase_prefix. fold n.
  rewrite decide_True by done. simpl.
  pose proof (structure_by_row_slice_spec (drop n plan)) as Hspec.
  pose proof (structure_by_row_slice_lookup (drop n plan)) as Hlookup.
  destruct (structure_by_row_slice (drop n plan)) as [sorted groups].
  destruct Hspec as (Hperm & Hsorted & Hidx & Hlab). simpl in Hlookup.
  exists sorted, groups. split_and!; try done.
  - by rewrite Hidx, Hperm, length_drop.
  - intros g i Hg Hi. destruct (Hlookup g i Hg Hi) as (rk & Hrk & Hin).
    exists rk. split_and!; try done.
    intros Hnodup Htake. rewrite <- (take_drop n plan) in Hnodup.
    apply NoDup_app in Hnodup as (_ & Hdisj & _). by apply (Hdisj rk).
Qed.

(** The statement of C6 on [descending_plan] with one entry skipped. *)
Lemma C6_sort_skips_incomplete_prefix_witness :
  1 ≤ length descending_plan ∧
  ∃ sorted groups,
    SortClause.structure_for_processing (SortClause.new "price" 1) descending_plan
      = Ok (sorted, groups) ∧
    sorted ≡ₚ drop 1 descending_plan ∧
    concat groups ≡ₚ seq 0 (length descending_plan - 1).
Proof.
  split; [simpl; lia|].
  destruct (C6_sort_skips_incomplete_prefix (SortClause.new "price" 1) descending_plan)
    as (sorted & groups & Hcall & _ & Hperm & _ & Hidx & _).
  - simpl. lia.
  - exists sorted, groups. split; [exact Hcall|]. split; [exact Hperm|exact Hidx].
Defined.

Example sort_skips_first_entry :
  SortClause.structure_for_processing (SortClause.new "price" 1) descending_plan
  = Ok ([ mkRangesAndKey (mkRange 0 100) (mkRange 0 5) "first" ], [[0]]).
Proof. reflexivity. Qed.

Example sort_prefix_longer_than_plan :
  SortClause.structure_for_processing (SortClause.new "price" 3) descending_plan
  = Undefined.
Proof. reflexivity. Qed.

(** ** Schemas *)

(** C4.  [ColumnStatsGenerationClause::modify_schema] returns the empty
    [OutputSchema] whatever schema it is given, so two inputs cannot be told
    apart from its result, and its result differs from every schema with at
    least one column: it is not the schema of a [process] output that
    carries the statistics columns. *)
Theorem C4_column_stats_modify_schema_empty (self : ColumnStatsGenerationClause.t) :
  (∀ schema, ColumnStatsGenerationClause.modify_schema self schema = Ok OutputSchema_empty) ∧
  (∀ schema1 schema2,
     ColumnStatsGenerationClause.modify_schema self schema1
     = ColumnStatsGenerationClause.modify_schema self schema2) ∧
  (∀ schema produced, columns produced ≠ [] →
     ColumnStatsGenerationClause.modify_schema self schema ≠ Ok produced).
Proof.
  split_and!; try done.
  intros schema produced Hcols [= <-]. by apply Hcols.
Qed.

(** The statement of C4 at a schema holding one statistics column. *)
Lemma C4_column_stats_modify_schema_empty_witness :
  let stats := mkOutputSchema [("v1.0_MIN(price)", "FLOAT64", false)] None false in
  columns stats ≠ [] ∧
  ColumnStatsGenerationClause.modify_schema (ColumnStatsGenerationClause.new {["price"]}) stats
  ≠ Ok stats.
Proof.
  intros stats.
  assert (columns stats ≠ []) as Hcols by (simpl; discriminate).
  split; [exact Hcols|].
  exact (proj2 (proj2 (C4_column_stats_modify_schema_empty
                         (ColumnStatsGenerationClause.new {["price"]})))
           stats stats Hcols).
Defined.

(** ** Construction of a filter *)

(** C5.  [FilterClause]'s constructor succeeds exactly when the root node
    name of the expression context is an [ExpressionName]; the clause then
    records that name, the input columns and the optimisation (SPEED when
    none is given).  On every other root (a value, a column, a value set, a
    regex, or no name at all) it raises [E_INVALID_USER_ARGUMENT]. *)
Theorem C5_filter_clause_requires_expression_root (input_columns : gset string)
    (expression_context : ExpressionContext.t)
    (optimisation : option PipelineOptimisation) :
  let root := ExpressionContext.root_node_name_ expression_context in
  let built := FilterClause.new input_columns expression_context optimisation in
  ((∃ clause, built = Ok clause) ↔ (∃ name, root = ExpressionName name)) ∧
  (∀ name, root = ExpressionName name →
     built = Ok (FilterClause.mk (set_input_columns input_columns ClauseInfo_default)
                   expression_context name (default SPEED optimisation))) ∧
  ((∀ name, root ≠ ExpressionName name) →
     built = Throw (ArcticException E_INVALID_USER_ARGUMENT
                      "FilterClause AST would produce a column, not a bitset")).
Proof.
  intros root built. subst root built. unfold FilterClause.new.
  destruct (ExpressionContext.root_node_name_ expression_context)
    as [| c | v | vs | e | r]; simpl.
  all: try (split; [split; intros [? ?]; discriminate|];
            split; [intros name ?; discriminate | reflexivity]).
  split; [split; eauto|].
  split; [by intros name [= ->]|].
  intros Hne. by destruct (Hne e).
Qed.

(** The statement of C5 at an expression root and at a value root. *)
Lemma C5_filter_clause_requires_expression_root_witness :
  (ExpressionContext.root_node_name_ (ExpressionContext.mk (ExpressionName "root") false)
   = ExpressionName "root" ∧
   is_Ok (FilterClause.new {["price"]}
            (ExpressionContext.mk (ExpressionName "root") false) None) = true) ∧
  ((∀ name, ExpressionContext.root_node_name_ (ExpressionContext.mk (ValueName "five") false)
            ≠ ExpressionName name) ∧
   FilterClause.new {["price"]} (ExpressionContext.mk (ValueName "five") false) (Some MEMORY)
   = Throw (ArcticException E_INVALID_USER_ARGUMENT
              "FilterClause AST would produce a column, not a bitset")).
Proof.
  split.
  - split; [reflexivity|].
    rewrite (proj1 (proj2 (C5_filter_clause_requires_expression_root {["price"]}
                             (ExpressionContext.mk (ExpressionName "root") false) None))
               "root" eq_refl).
    reflexivity.
  - assert (∀ name, ExpressionContext.root_node_name_
                      (ExpressionContext.mk (ValueName "five") false)
                    ≠ ExpressionName name) as Hroot by (intros name; discriminate).
    split; [exact Hroot|].
    exact (proj2 (proj2 (C5_filter_clause_requires_expression_root {["price"]}
                           (ExpressionContext.mk (ValueName "five") false) (Some MEMORY)))
             Hroot).
Defined.

(** ** Read options *)

(** C7.  A freshly constructed [ReadOptions] has each of its eight optional
    booleans unset and [output_format] equal to PANDAS, and
    [get_incompletes] returns false on it, as on every [ReadOptions] whose
    [incompletes] is unset. *)
Theorem C7_read_options_defaults :
  let fresh := ReadOptions.new in
  ReadOptionsData.force_strings_to_fixed_ (ReadOptions.data_ fresh) = None ∧
  ReadOptionsData.force_strings_to_object_ (ReadOptions.data_ fresh) = None ∧
  ReadOptionsData.incompletes_ (ReadOptions.data_ fresh) = None ∧
  ReadOptionsData.dynamic_schema_ (ReadOptions.data_ fresh) = None ∧
  ReadOptionsData.allow_sparse_ (ReadOptions.data_ fresh) = None ∧
  ReadOptionsData.set_tz_ (ReadOptions.data_ fresh) = None ∧
  ReadOptionsData.optimise_string_memory_ (ReadOptions.data_ fresh) = None ∧
  ReadOptionsData.batch_throw_on_error_ (ReadOptions.data_ fresh) = None ∧
  ReadOptions.output_format fresh = PANDAS ∧
  ReadOptions.get_incompletes fresh = false ∧
  (∀ options, ReadOptions.incompletes options = None →
              ReadOptions.get_incompletes options = false).
Proof.
  split_and!; try reflexivity.
  intros options Hunset. unfold ReadOptions.get_incompletes, ReadOptions.incompletes in *.
  by rewrite Hunset.
Qed.

(** The statement of C7 at options on which only [dynamic_schema] was set. *)
Lemma C7_read_options_defaults_witness :
  let options := ReadOptions.set_dynamic_schema (Some true) ReadOptions.new in
  ReadOptions.incompletes options = None ∧ ReadOptions.get_incompletes options = false.
Proof.
  intros options.
  assert (ReadOptions.incompletes options = None) as Hunset by reflexivity.
  split; [exact Hunset|].
  exact (proj2 (proj2 (proj2 (proj2 (proj2 (proj2 (proj2 (proj2 (proj2 (proj2
           C7_read_options_defaults))))))))) options Hunset).
Defined.

Example get_incompletes_after_set :
  ReadOptions.get_incompletes (ReadOptions.set_incompletes (Some true) ReadOptions.new) = true.
Proof. reflexivity. Qed.

(** ** Partitioning an empty unit *)

(** C8.  Whatever the grouper and bucketizer, and whatever gathering and
    publishing do, [PartitionClause::process] on an empty list of entity ids
    returns the empty list and leaves the component manager as it was. *)
Theorem C8_partition_process_empty {ComponentManager ProcessingUnit : Type}
    (gather_entities : list EntityId → stateful ComponentManager ProcessingUnit)
    (partition_processing_segment :
       ProcessingUnit → string → bool → outcome (list ProcessingUnit))
    (push_entities : ProcessingUnit → stateful ComponentManager (list EntityId))
    (self : PartitionClause.t) (component_manager : ComponentManager) :
  PartitionClause.process gather_entities partition_processing_segment push_entities
    self [] component_manager
  = (Ok [], component_manager).
Proof. reflexivity. Qed.

Example partition_process_publishes :
  Sample.partition_process (PartitionClause.new "v") [0%Z] [[1; 2; 3; 4]%Z]
  = (Ok [1; 2]%Z, [[1; 2; 3; 4]; [2; 4]; [1; 3]]%Z).
Proof. reflexivity. Qed.

Example partition_process_nothing :
  Sample.partition_process (PartitionClause.new "v") [] [[1; 2; 3; 4]%Z]
  = (Ok [], [[1; 2; 3; 4]%Z]).
Proof. reflexivity. Qed.

(** ** The Mongo client *)

Lemma find_all (collection : list document) : find collection [] = collection.
Proof.
  unfold find. induction collection as [|doc rest IH]; [done|].
  rewrite filter_cons_True by done. by rewrite IH.
Qed.

Lemma find_one_None collection query :
  find_one collection query = None ↔
  ∀ doc, doc ∈ collection → matches query doc = false.
Proof.
  unfold find_one, find. rewrite head_None. split.
  - intros Hnil doc Hin. destruct (matches query doc) eqn:Hm; [|done].
    exfalso. revert Hin. eapply filter_nil_not_elem_of; [exact Hnil|].
    simpl. by rewrite Hm.
  - intros Hnone. induction collection as [|doc rest IH]; [done|].
    rewrite filter_cons_False.
    + apply IH. intros d Hd. apply Hnone. by right.
    + rewrite (Hnone doc) by left. simpl. tauto.
Qed.

Lemma find_one_Some collection query doc :
  find_one collection query = Some doc →
  doc ∈ collection ∧ matches query doc = true.
Proof.
  unfold find_one, find. intros Hhead.
  apply head_Some_elem_of, list_elem_of_filter in Hhead as [Hm Hin].
  split; [done|]. by destruct (matches query doc).
Qed.

Section mongo_facts.
Context {KeyType : Type} `{EqDecision KeyType}.
Context (VERSION : KeyType).
Context (is_string_key_type is_ref_key_class : KeyType → bool).
Context (TIMESTAMP : Z).
Context (format_key : VariantKey KeyType → string).
Context (format_stream_id : StreamId → string).
Context {Segment : Type}.
Context (Segment_from_bytes : list Byte.byte → Z → bool → outcome Segment).
Context {FailureType : Type} (READ : FailureType).
Context (simulator : StorageFailureSimulator.t FailureType).

#[local] Abbreviation read_segment :=
  (MongoClientImpl.read_segment VERSION is_string_key_type TIMESTAMP format_key
     format_stream_id Segment_from_bytes READ simulator).
#[local] Abbreviation read_query := (MongoClientImpl.read_query format_key format_stream_id).
#[local] Abbreviation variant_key_from_document :=
  (detail.variant_key_from_document VERSION is_string_key_type TIMESTAMP).
#[local] Abbreviation list_keys :=
  (MongoClientImpl.list_keys VERSION is_string_key_type is_ref_key_class TIMESTAMP).
#[local] Abbreviation key_from_document :=
  (MongoClientImpl.key_from_document VERSION is_string_key_type is_ref_key_class
     TIMESTAMP).

(** The simulator lets a read through: it is not configured, or its [go]
    returns. *)
#[local] Abbreviation simulator_passes :=
  ((if StorageFailureSimulator.configured simulator
    then StorageFailureSimulator.go simulator READ else Ok tt) = Ok tt).

(** Once a client is acquired and the simulator lets the read through,
    [read_segment] is the branch on [find_one]. *)
Lemma read_segment_reached self database_name collection_name key c :
  MongoClientImpl.get_client self = Ok c →
  simulator_passes →
  read_segment self database_name collection_name key =
  match find_one (collection_of c database_name collection_name) (read_query key) with
  | Some doc =>
      size ← get_int64 doc "total_size";
      stored_key ← variant_key_from_document doc key;
      _ ← check E_ASSERTION_FAILURE (bool_decide (stored_key = key))
            "Key mismatch: {} != {}";
      bytes ← get_binary doc "data";
      segment ← Segment_from_bytes bytes (to_uint64 size) true;
      Ok (Some (KeySegmentPair.mk stored_key segment))
  | None => Ok None
  end.
Proof.
  intros Hclient Hsim. unfold MongoClientImpl.read_segment.
  rewrite Hclient. simpl. by rewrite Hsim.
Qed.

(** A call that returns went through the client and the simulator. *)
Lemma read_segment_returns self database_name collection_name key result :
  read_segment self database_name collection_name key = Ok result →
  ∃ c, MongoClientImpl.get_client self = Ok c ∧ simulator_passes.
Proof.
  unfold MongoClientImpl.read_segment.
  destruct (MongoClientImpl.get_client self) as [c| |]; simpl; [|done..].
  destruct (if StorageFailureSimulator.configured simulator
            then StorageFailureSimulator.go simulator READ else Ok tt)
    as [[]| |]; simpl; [|done..].
  eauto.
Qed.

(** What the found branch returns, step by step. *)
Lemma read_found_inv doc key (result : option (KeySegmentPair.t KeyType Segment)) :
  (size ← get_int64 doc "total_size";
   stored_key ← variant_key_from_document doc key;
   _ ← check E_ASSERTION_FAILURE (bool_decide (stored_key = key))
         "Key mismatch: {} != {}";
   bytes ← get_binary doc "data";
   segment ← Segment_from_bytes bytes (to_uint64 size) true;
   Ok (Some (KeySegmentPair.mk stored_key segment))) = Ok result →
  ∃ size bytes segment,
    get_int64 doc "total_size" = Ok size ∧
    variant_key_from_document doc key = Ok key ∧
    get_binary doc "data" = Ok bytes ∧
    Segment_from_bytes bytes (to_uint64 size) true = Ok segment ∧
    result = Some (KeySegmentPair.mk key segment).
Proof.
  destruct (get_int64 doc "total_size") as [size| |]; simpl; [|done..].
  destruct (variant_key_from_document doc key) as [stored_key| |]; simpl; [|done..].
  case_bool_decide as Heq; simpl; [|done]. subst stored_key.
  destruct (get_binary doc "data") as [bytes| |]; simpl; [|done..].
  destruct (Segment_from_bytes bytes (to_uint64 size) true) as [segment| |] eqn:Hseg;
    simpl; [|done..].
  intros [= <-]. by exists size, bytes, segment.
Qed.
(** C9.  [read_segment] returns [std::nullopt] only when no stored
    document matches the query for the requested key (its formatted key
    and formatted stream id), and, once a client is acquired and the
    failure simulator lets the read through, whenever none matches.  For
    the document found, the key rebuilt from it is compared with the
    requested key: a different key raises the check failure "Key
    mismatch", and an equal key makes the call return that key paired
    with the segment decoded from the document's [data] bytes and
    [total_size].  Every pair returned arises in this way. *)
Theorem C9_read_segment_outcomes (self : MongoClientImpl.t)
    (database_name collection_name : string) (key : VariantKey KeyType) :
  let result := read_segment self database_name collection_name key in
  (result = Ok None →
     ∃ c, MongoClientImpl.get_client self = Ok c ∧
          ∀ doc, doc ∈ collection_of c database_name collection_name →
                 matches (read_query key) doc = false) ∧
  (∀ c, MongoClientImpl.get_client self = Ok c → simulator_passes →
     let collection := collection_of c database_name collection_name in
     ((∀ doc, doc ∈ collection → matches (read_query key) doc = false) →
      result = Ok None) ∧
     (∀ doc size stored_key,
        find_one collection (read_query key) = Some doc →
        get_int64 doc "total_size" = Ok size →
        variant_key_from_document doc key = Ok stored_key →
        (stored_key ≠ key →
         result = Throw (ArcticException E_ASSERTION_FAILURE "Key mismatch: {} != {}")) ∧
        (stored_key = key →
         ∀ bytes segment,
           get_binary doc "data" = Ok bytes →
           Segment_from_bytes bytes (to_uint64 size) true = Ok segment →
           result = Ok (Some (KeySegmentPair.mk stored_key segment))))) ∧
  (∀ pair, result = Ok (Some pair) →
     ∃ c doc size bytes,
       MongoClientImpl.get_client self = Ok c ∧
       find_one (collection_of c database_name collection_name) (read_query key)
       = Some doc ∧
       matches (read_query key) doc = true ∧
       variant_key_from_document doc key = Ok (KeySegmentPair.variant_key pair) ∧
       KeySegmentPair.variant_key pair = key ∧
       get_int64 doc "total_size" = Ok size ∧
       get_binary doc "data" = Ok bytes ∧
       Segment_from_bytes bytes (to_uint64 size) true
       = Ok (KeySegmentPair.segment pair)).
Proof.
  intros result. subst result. split; [|split].
  - intros Hnone.
    destruct (read_segment_returns _ _ _ _ _ Hnone) as (c & Hclient & Hsim).
    exists c. split; [done|].
    rewrite (read_segment_reached _ _ _ _ c Hclient Hsim) in Hnone.
    apply find_one_None.
    destruct (find_one _ _) as [doc|]; [|done].
    apply read_found_inv in Hnone as (? & ? & ? & _ & _ & _ & _ & [=]).
  - intros c Hclient Hsim collection.
    rewrite (read_segment_reached _ _ _ _ c Hclient Hsim). fold collection. split.
    + intros Hnomatch. apply find_one_None in Hnomatch. by rewrite Hnomatch.
    + intros doc size stored_key -> Hsize Hkey. rewrite Hsize, Hkey. simpl. split.
      * intros Hne. by rewrite bool_decide_eq_false_2.
      * intros Heq bytes segment Hbytes Hsegment.
        rewrite bool_decide_eq_true_2 by done. simpl.
        by rewrite Hbytes; simpl; rewrite Hsegment.
  - intros pair Hpair.
    destruct (read_segment_returns _ _ _ _ _ Hpair) as (c & Hclient & Hsim).
    rewrite (read_segment_reached _ _ _ _ c Hclient Hsim) in Hpair.
    destruct (find_one _ _) as [doc|] eqn:Hfound; [|done].
    apply read_found_inv in Hpair as (size & bytes & segment & ? & ? & ? & ? & [= ->]).
    exists c, doc, size, bytes. simpl.
    split_and!; try done. by apply find_one_Some in Hfound as [_ ?].
Qed.

Lemma atom_key_from_document_type doc key_type k :
  detail.atom_key_from_document is_string_key_type TIMESTAMP doc key_type = Ok k →
  AtomKey.type k = key_type.
Proof.
  unfold detail.atom_key_from_document.
  destruct (get_int32 doc "index_type") as [index_type| |]; simpl; [|done..].
  destruct (index_type =? TIMESTAMP)%Z; simpl.
  1: destruct (get_int64 doc "start_time") as [s| |]; simpl; [|done..];
     destruct (get_int64 doc "end_time") as [e| |]; simpl; [|done..].
  2: destruct (get_string_element doc "start_key") as [s| |]; simpl; [|done..];
     destruct (get_string_element doc "end_key") as [e| |]; simpl; [|done..].
  all: destruct (detail.stream_id_from_document _ _ _) as [sid| |]; simpl; [|done..];
    destruct (get_int64 doc "version_id") as [v| |]; simpl; [|done..];
    destruct (get_int64 doc "creation_ts") as [ts| |]; simpl; [|done..];
    destruct (get_int64 doc "content_hash") as [h| |]; simpl; [|done..];
    by intros [= <-].
Qed.

Lemma key_from_document_shape key_type doc k :
  key_from_document key_type doc = Ok k →
  holds_AtomKey k = negb (is_ref_key_class key_type) ∧ variant_key_type k = key_type.
Proof.
  unfold MongoClientImpl.key_from_document.
  destruct (is_ref_key_class key_type); simpl.
  - unfold detail.ref_key_from_document.
    destruct (detail.stream_id_from_document _ _ _) as [sid| |]; simpl; [|done..].
    by intros [= <-].
  - destruct (detail.atom_key_from_document _ _ _ _) as [a| |] eqn:Ha; simpl; [|done..].
    intros [= <-]. split; [done|]. simpl. by eapply atom_key_from_document_type.
Qed.

Lemma mapM_key_from_document_shape key_type docs keys :
  mapM (key_from_document key_type) docs = Ok keys →
  Forall (λ k, holds_AtomKey k = negb (is_ref_key_class key_type) ∧
               variant_key_type k = key_type) keys.
Proof.
  revert keys. induction docs as [|doc rest IH]; intros keys; simpl.
  - intros [= <-]. constructor.
  - destruct (key_from_document key_type doc) as [k| |] eqn:Hk; simpl; [|done..].
    destruct (mapM _ rest) as [ks| |]; simpl; [|done..].
    intros [= <-]. constructor; [by eapply key_from_document_shape|by apply IH].
Qed.

(** C10.  [list_keys] with an empty-string prefix is [list_keys] with no
    prefix: both decode every document of the collection, in order, as
    atom keys or as ref keys according to the requested key type.  The
    stream-id condition is part of the query only for a prefix that is
    present and not empty. *)
Theorem C10_list_keys_empty_prefix (self : MongoClientImpl.t)
    (database_name collection_name : string) (key_type : KeyType) :
  list_keys self database_name collection_name key_type (Some "")
  = list_keys self database_name collection_name key_type None ∧
  list_keys self database_name collection_name key_type None
  = (c ← MongoClientImpl.get_client self;
     mapM (key_from_document key_type)
       (collection_of c database_name collection_name)) ∧
  (∀ prefix, prefix ≠ "" →
     list_keys self database_name collection_name key_type (Some prefix)
     = (c ← MongoClientImpl.get_client self;
        mapM (key_from_document key_type)
          (find (collection_of c database_name collection_name)
             [("stream_id", prefix)]))) ∧
  (∀ prefix keys,
     list_keys self database_name collection_name key_type prefix = Ok keys →
     Forall (λ k, holds_AtomKey k = negb (is_ref_key_class key_type) ∧
                  variant_key_type k = key_type) keys).
Proof.
  split_and!.
  - reflexivity.
  - unfold MongoClientImpl.list_keys.
    destruct (MongoClientImpl.get_client self) as [c| |]; simpl; [|done..].
    by rewrite find_all.
  - intros prefix Hprefix. unfold MongoClientImpl.list_keys.
    destruct (MongoClientImpl.get_client self) as [c| |]; simpl; [|done..].
    destruct (String.eqb_spec prefix "") as [->|_]; [done|]. reflexivity.
  - intros prefix keys. unfold MongoClientImpl.list_keys.
    destruct (MongoClientImpl.get_client self) as [c| |]; simpl; [|done..].
    apply mapM_key_from_document_shape.
Qed.
End mongo_facts.

Example read_segment_found :
  Sample.read_segment Sample.mongo "arcticdb" "lib" Sample.sym_ref
  = Ok (Some (KeySegmentPair.mk Sample.sym_ref [Byte.x01; Byte.x02])).
Proof. vm_compute. reflexivity. Qed.

Example read_segment_absent :
  Sample.read_segment Sample.mongo "arcticdb" "lib" Sample.absent_ref = Ok None.
Proof. vm_compute. reflexivity. Qed.

Example read_segment_key_mismatch :
  Sample.read_segment Sample.mongo "arcticdb" "lib" Sample.sym_ref_old
  = Throw (ArcticException E_ASSERTION_FAILURE "Key mismatch: {} != {}").
Proof. vm_compute. reflexivity. Qed.

Example list_keys_no_prefix :
  Sample.list_keys Sample.mongo "arcticdb" "lib" Sample.VERSION_REF None
  = Ok [ ref_key (RefKey.mk (StringId "other") Sample.VERSION_REF false);
         Sample.sym_ref ].
Proof. vm_compute. reflexivity. Qed.

Example list_keys_with_prefix :
  Sample.list_keys Sample.mongo "arcticdb" "lib" Sample.VERSION_REF (Some "sym")
  = Ok [ Sample.sym_ref ].
Proof. vm_compute. reflexivity. Qed.

(** The statement of C9 on the sample server, for a key that is stored. *)
Lemma C9_read_segment_outcomes_witness :
  MongoClientImpl.get_client Sample.mongo = Ok Sample.server ∧
  (if StorageFailureSimulator.configured Sample.simulator
   then StorageFailureSimulator.go Sample.simulator Sample.READ else Ok tt) = Ok tt ∧
  find_one (collection_of Sample.server "arcticdb" "lib")
    (MongoClientImpl.read_query Sample.format_key Sample.format_stream_id Sample.sym_ref)
  = Some Sample.sym_doc ∧
  get_int64 Sample.sym_doc "total_size" = Ok 2%Z ∧
  detail.variant_key_from_document Sample.VERSION Sample.is_string_key_type
    Sample.TIMESTAMP Sample.sym_doc Sample.sym_ref = Ok Sample.sym_ref ∧
  get_binary Sample.sym_doc "data" = Ok [Byte.x01; Byte.x02] ∧
  Sample.Segment_from_bytes [Byte.x01; Byte.x02] (to_uint64 2) true
  = Ok [Byte.x01; Byte.x02] ∧
  Sample.read_segment Sample.mongo "arcticdb" "lib" Sample.sym_ref
  = Ok (Some (KeySegmentPair.mk Sample.sym_ref [Byte.x01; Byte.x02])).
Proof.
  assert (MongoClientImpl.get_client Sample.mongo = Ok Sample.server) as Hclient
    by reflexivity.
  assert ((if StorageFailureSimulator.configured Sample.simulator
           then StorageFailureSimulator.go Sample.simulator Sample.READ else Ok tt)
          = Ok tt) as Hsim by reflexivity.
  assert (find_one (collection_of Sample.server "arcticdb" "lib")
            (MongoClientImpl.read_query Sample.format_key Sample.format_stream_id
               Sample.sym_ref)
          = Some Sample.sym_doc) as Hfound by (vm_compute; reflexivity).
  assert (get_int64 Sample.sym_doc "total_size" = Ok 2%Z) as Hsize by reflexivity.
  assert (detail.variant_key_from_document Sample.VERSION Sample.is_string_key_type
            Sample.TIMESTAMP Sample.sym_doc Sample.sym_ref = Ok Sample.sym_ref)
    as Hkey by reflexivity.
  assert (get_binary Sample.sym_doc "data" = Ok [Byte.x01; Byte.x02]) as Hbytes
    by reflexivity.
  assert (Sample.Segment_from_bytes [Byte.x01; Byte.x02] (to_uint64 2) true
          = Ok [Byte.x01; Byte.x02]) as Hsegment by reflexivity.
  repeat (split; [assumption|]).
  destruct (C9_read_segment_outcomes Sample.VERSION Sample.is_string_key_type
              Sample.TIMESTAMP Sample.format_key Sample.format_stream_id
              Sample.Segment_from_bytes Sample.READ Sample.simulator
              Sample.mongo "arcticdb" "lib" Sample.sym_ref) as (_ & Hreached & _).
  destruct (Hreached Sample.server Hclient Hsim) as [_ Hdoc].
  destruct (Hdoc Sample.sym_doc 2%Z Sample.sym_ref Hfound Hsize Hkey) as [_ Hsame].
  exact (Hsame eq_refl _ _ Hbytes Hsegment).
Defined.

(** The statement of C10 on the sample server, for the prefix [sym]. *)
Lemma C10_list_keys_empty_prefix_witness :
  "sym" ≠ "" ∧
  Sample.list_keys Sample.mongo "arcticdb" "lib" Sample.VERSION_REF (Some "sym")
  = (c ← MongoClientImpl.get_client Sample.mongo;
     mapM (MongoClientImpl.key_from_document Sample.VERSION Sample.is_string_key_type
             Sample.is_ref_key_class Sample.TIMESTAMP Sample.VERSION_REF)
       (find (collection_of c "arcticdb" "lib") [("stream_id", "sym")])).
Proof.
  assert ("sym" ≠ "") as Hprefix by discriminate.
  split; [exact Hprefix|].
  destruct (C10_list_keys_empty_prefix Sample.VERSION Sample.is_string_key_type
              Sample.is_ref_key_class Sample.TIMESTAMP
              Sample.mongo "arcticdb" "lib" Sample.VERSION_REF) as (_ & _ & Hfilter & _).
  exact (Hfilter "sym" Hprefix).
Defined.

(** * Further properties of the code *)

(** ** The clause interface on a plan *)

Lemma Ok_inj {A} (a b : A) : Ok a = Ok b → a = b.
Proof. by intros [=]. Qed.

Tactic Notation "unfold_structuring" "in" hyp(H) :=
  simpl in H;
  unfold
    PassthroughClause.structure_for_processing, FilterClause.structure_for_processing,
    ProjectClause.structure_for_processing, PartitionClause.structure_for_processing,
    AggregationClause.structure_for_processing,
    RemoveColumnPartitioningClause.structure_for_processing,
    SplitClause.structure_for_processing, SortClause.structure_for_processing,
    MergeClause.structure_for_processing,
    ColumnStatsGenerationClause.structure_for_processing,
    ConcatClause.structure_for_processing, erase_prefix, raise in H.

Tactic Notation "unfold_structuring" :=
  simpl;
  unfold
    PassthroughClause.structure_for_processing, FilterClause.structure_for_processing,
    ProjectClause.structure_for_processing, PartitionClause.structure_for_processing,
    AggregationClause.structure_for_processing,
    RemoveColumnPartitioningClause.structure_for_processing,
    SplitClause.structure_for_processing, SortClause.structure_for_processing,
    MergeClause.structure_for_processing,
    ColumnStatsGenerationClause.structure_for_processing,
    ConcatClause.structure_for_processing, erase_prefix, raise.

(** X1.  For each of the eleven clauses whose plan-level
    [structure_for_processing] is defined in clause.hpp (Passthrough,
    Filter, Project, Partition, Aggregation, RemoveColumnPartitioning,
    Split, Sort, Merge, ColumnStatsGeneration, Concat): when the call
    returns, the plan it leaves is a permutation of what remains of the
    caller's plan after dropping a prefix (the whole plan, except for
    [SortClause] and [RemoveColumnPartitioningClause], which drop
    [incompletes_after_] entries), and the groups returned are lists of
    indexes into that plan that use each index exactly once.  Nothing is
    said of [ResampleClause], [RowRangeClause] and [DateRangeClause], whose
    bodies the header does not have. *)
Theorem X1_first_clause_groups_index_the_plan {Key : Type} (c : Clause)
    (plan sorted : list (RangesAndKey Key)) (groups : list (list nat)) :
  IClause.structure_for_processing c plan = Ok (sorted, groups) →
  let skipped :=
    match c with
    | Sort s => SortClause.incompletes_after_ s
    | RemoveColumnPartitioning r => RemoveColumnPartitioningClause.incompletes_after_ r
    | _ => 0
    end in
  skipped ≤ length plan ∧
  sorted ≡ₚ drop skipped plan ∧
  length sorted = length plan - skipped ∧
  concat groups ≡ₚ seq 0 (length sorted) ∧
  (∀ g i, g ∈ groups → i ∈ g → is_Some (sorted !! i)).
Proof.
  intros Hcall skipped.
  assert (skipped ≤ length plan ∧ (sorted, groups) = structure_by_row_slice (drop skipped plan))
    as [Hle Heq].
  { destruct c; unfold_structuring in Hcall; subst skipped; try discriminate;
      try (apply Ok_inj in Hcall; split; [lia|exact (eq_sym Hcall)]).
    all: case_decide; simpl in Hcall; [|discriminate].
    all: apply Ok_inj in Hcall; split; [done|exact (eq_sym Hcall)]. }
  pose proof (structure_by_row_slice_spec (drop skipped plan)) as Hspec.
  rewrite <- Heq in Hspec. destruct Hspec as (Hperm & _ & Hidx & _).
  assert (length sorted = length plan - skipped) as Hlen
    by (by rewrite Hperm, length_drop).
  split_and!; try done.
  intros g i Hg Hi. apply lookup_lt_is_Some.
  assert (i ∈ seq 0 (length sorted)) as Hin.
  { rewrite <- Hidx. apply elem_of_concat. eauto. }
  apply elem_of_seq in Hin. lia.
Qed.

(** The statement of X1 for a sort that skips one entry of
    [descending_plan]. *)
Lemma X1_first_clause_groups_index_the_plan_witness :
  IClause.structure_for_processing (Sort (SortClause.new "price" 1)) descending_plan
  = Ok ([ mkRangesAndKey (mkRange 0 100) (mkRange 0 5) "first" ], [[0]]) ∧
  [ mkRangesAndKey (mkRange 0 100) (mkRange 0 5) "first" ] ≡ₚ drop 1 descending_plan.
Proof.
  assert (IClause.structure_for_processing (Sort (SortClause.new "price" 1)) descending_plan
          = Ok ([ mkRangesAndKey (mkRange 0 100) (mkRange 0 5) "first" ], [[0]]))
    as Hcall by reflexivity.
  split; [exact Hcall|].
  exact (proj1 (proj2 (X1_first_clause_groups_index_the_plan _ _ _ _ Hcall))).
Defined.

(** X2.  Among the eleven clauses whose plan-level
    [structure_for_processing] is defined in clause.hpp, the call throws
    exactly for [AggregationClause], [MergeClause] and [ConcatClause], and
    it is undefined exactly when a [SortClause] or a
    [RemoveColumnPartitioningClause] is asked to skip more entries than the
    plan has; in every other case, for these eleven, it returns.  Nothing is
    said of [ResampleClause], [RowRangeClause] and [DateRangeClause], whose
    bodies the header does not have. *)
Theorem X2_first_clause_failures {Key : Type} (c : Clause) (plan : list (RangesAndKey Key)) :
  ((∃ e, IClause.structure_for_processing c plan = Throw e) ↔
   match c with Aggregation _ | Merge _ | Concat _ => True | _ => False end) ∧
  (IClause.structure_for_processing c plan = Undefined ↔
   match c with
   | Sort s => length plan < SortClause.incompletes_after_ s
   | RemoveColumnPartitioning r =>
       length plan < RemoveColumnPartitioningClause.incompletes_after_ r
   | _ => False
   end) ∧
  ((∃ r, IClause.structure_for_processing c plan = Ok r) ↔
   match c with
   | Aggregation _ | Merge _ | Concat _ => False
   | Sort s => SortClause.incompletes_after_ s ≤ length plan
   | RemoveColumnPartitioning r =>
       RemoveColumnPartitioningClause.incompletes_after_ r ≤ length plan
   | _ => True
   end).
Proof.
  destruct c; unfold_structuring; try case_decide; simpl.
  all: split_and!; split.
  all: try (intros [e He]; discriminate He); try (intros He; discriminate He).
  all: try done; try lia; eauto.
Qed.

(** ** Construction of a projection, and filters after construction *)

(** X3.  [ProjectClause]'s constructor succeeds exactly when the root node
    name is an [ExpressionName] or a [ValueName], and raises
    [E_INVALID_USER_ARGUMENT] otherwise; so every expression context from
    which a [FilterClause] can be built also builds a [ProjectClause], and a
    context rooted at a value builds a projection and no filter. *)
Theorem X3_project_clause_root (input_columns : gset string) (output_column : string)
    (expression_context : ExpressionContext.t)
    (optimisation : option PipelineOptimisation) :
  let root := ExpressionContext.root_node_name_ expression_context in
  let projected := ProjectClause.new input_columns output_column expression_context in
  let filtered := FilterClause.new input_columns expression_context optimisation in
  (is_Ok projected = true ↔ ∃ name, root = ExpressionName name ∨ root = ValueName name) ∧
  (is_Ok projected = false →
     projected = Throw (ArcticException E_INVALID_USER_ARGUMENT
                          "ProjectClause AST would not produce a column")) ∧
  (is_Ok filtered = true → is_Ok projected = true) ∧
  (∀ name, root = ValueName name → is_Ok projected = true ∧ is_Ok filtered = false).
Proof.
  intros root projected filtered. subst root projected filtered.
  unfold ProjectClause.new, FilterClause.new.
  destruct (ExpressionContext.root_node_name_ expression_context); simpl.
  all: repeat split; try done.
  all: try (intros [name [H|H]]; discriminate H).
  all: try (intros; discriminate).
  all: eauto.
Qed.

(** The statement of X3 at a context rooted at a value. *)
Lemma X3_project_clause_root_witness :
  ExpressionContext.root_node_name_ (ExpressionContext.mk (ValueName "five") false)
  = ValueName "five" ∧
  is_Ok (ProjectClause.new {["price"]} "five_column"
           (ExpressionContext.mk (ValueName "five") false)) = true ∧
  is_Ok (FilterClause.new {["price"]} (ExpressionContext.mk (ValueName "five") false) None)
  = false.
Proof.
  split; [reflexivity|].
  exact (proj2 (proj2 (proj2 (X3_project_clause_root {["price"]} "five_column"
                                (ExpressionContext.mk (ValueName "five") false) None)))
           "five" eq_refl).
Defined.



(** ** Partitioning *)

Section partition_facts.
Context {ComponentManager ProcessingUnit : Type}.
Context (gather_entities : list EntityId → stateful ComponentManager ProcessingUnit).
Context (partition_processing_segment :
           ProcessingUnit → string → bool → outcome (list ProcessingUnit)).
Context (push_entities : ProcessingUnit → stateful ComponentManager (list EntityId)).

Lemma push_partitioned_mapM partitioned_procs output component_manager :
  PartitionClause.push_partitioned push_entities partitioned_procs output component_manager
  = (ids ← mapM push_entities partitioned_procs; mret (output ++ concat ids))
      component_manager.
Proof.
  revert output component_manager.
  induction partitioned_procs as [|proc rest IH]; intros output cm; simpl.
  - unfold mret, stateful_ret, mbind, stateful_bind. simpl.
    by rewrite (right_id_L [] (++)).
  - unfold mbind, stateful_bind in *. simpl.
    destruct (push_entities proc cm) as [[ids| |] cm']; [|done..].
    rewrite IH. simpl.
    destruct (mapM push_entities rest cm') as [[idss| |] cm'']; [|done..].
    unfold mret, stateful_ret. simpl. by rewrite (assoc_L (++)).
Qed.

(** X5.  On a non-empty list of entity ids, [PartitionClause::process]
    gathers the entities, partitions them on the grouping column with the
    configured dynamic-schema flag, publishes the partitions one after the
    other in the order the partitioning gave them, and returns the published
    ids in that order, those of one partition next to each other.  An
    exception from any step ends the call, with the component manager as the
    steps before it left it. *)
Theorem X5_partition_process_publishes_in_order (self : PartitionClause.t)
    (entity_ids : list EntityId) (component_manager : ComponentManager) :
  entity_ids ≠ [] →
  PartitionClause.process gather_entities partition_processing_segment push_entities
    self entity_ids component_manager
  = (proc ← gather_entities entity_ids;
     partitioned_procs ←
       lift_outcome (partition_processing_segment proc
                       (PartitionClause.grouping_column_ self)
                       (ProcessingConfig.dynamic_schema_
                          (PartitionClause.processing_config_ self)));
     ids ← mapM push_entities partitioned_procs;
     mret (concat ids)) component_manager.
Proof.
  intros Hne. destruct entity_ids as [|id ids]; [done|].
  unfold PartitionClause.process, mbind, stateful_bind, lift_outcome.
  destruct (gather_entities (id :: ids) component_manager) as [[proc| |] cm]; [|done..].
  destruct (partition_processing_segment _ _ _) as [procs| |]; [|done..].
  rewrite push_partitioned_mapM. reflexivity.
Qed.
End partition_facts.

(** The statement of X5 on the sample component manager. *)
Lemma X5_partition_process_publishes_in_order_witness :
  [0%Z] ≠ [] ∧
  Sample.partition_process (PartitionClause.new "v") [0%Z] [[1; 2; 3; 4]%Z]
  = (Ok [1; 2]%Z, [[1; 2; 3; 4]; [2; 4]; [1; 3]]%Z).
Proof.
  assert ([0%Z] ≠ []) as Hne by discriminate.
  split; [exact Hne|].
  unfold Sample.partition_process.
  rewrite (X5_partition_process_publishes_in_order Sample.gather_entities
             Sample.partition_processing_segment Sample.push_entities
             (PartitionClause.new "v") [0%Z] [[1; 2; 3; 4]%Z] Hne).
  reflexivity.
Defined.

(** ** Setting read options *)

(** X6.  A setter of [ReadOptions] gives its member the value passed and
    leaves the other eight members as they were; [get_incompletes] reads
    false unless [incompletes_] holds true. *)
Theorem X6_read_options_setter_frame (call : ReadOptionsCall.t) (options : ReadOptions.t)
    (m : ReadOptionsCall.member) :
  ReadOptionsCall.value_of m (ReadOptionsCall.run call options)
  = (if decide (m = ReadOptionsCall.assigns call)
     then ReadOptionsCall.assigned call
     else ReadOptionsCall.value_of m options) ∧
  (ReadOptions.get_incompletes options = true ↔
   ReadOptionsCall.value_of ReadOptionsCall.incompletes_ options = inl (Some true)).
Proof.
  split.
  - destruct options as [[]], call, m; reflexivity.
  - destruct options as [[? ? [[]|] ? ? ? ? ? ?]]; simpl; split; intros H;
      try done; by injection H.
Qed.

(** X7.  Two setters of different members may be called in either order,
    and of two calls to the setter of one member only the later one
    counts. *)
Theorem X7_read_options_setters_commute (first second : ReadOptionsCall.t)
    (options : ReadOptions.t) :
  (ReadOptionsCall.assigns first ≠ ReadOptionsCall.assigns second →
   ReadOptionsCall.run second (ReadOptionsCall.run first options)
   = ReadOptionsCall.run first (ReadOptionsCall.run second options)) ∧
  (ReadOptionsCall.assigns first = ReadOptionsCall.assigns second →
   ReadOptionsCall.run second (ReadOptionsCall.run first options)
   = ReadOptionsCall.run second options).
Proof.
  destruct options as [[]]. split; intros Hmember.
  - destruct first, second; simpl in Hmember; try done; reflexivity.
  - destruct first, second; simpl in Hmember; try discriminate; reflexivity.
Qed.

(** The statement of X7 at [set_incompletes] and [set_output_format]. *)
Lemma X7_read_options_setters_commute_witness :
  ReadOptionsCall.assigns (ReadOptionsCall.set_incompletes (Some true))
  ≠ ReadOptionsCall.assigns (ReadOptionsCall.set_output_format ARROW) ∧
  ReadOptions.set_output_format ARROW
    (ReadOptions.set_incompletes (Some true) ReadOptions.new)
  = ReadOptions.set_incompletes (Some true)
      (ReadOptions.set_output_format ARROW ReadOptions.new).
Proof.
  assert (ReadOptionsCall.assigns (ReadOptionsCall.set_incompletes (Some true))
          ≠ ReadOptionsCall.assigns (ReadOptionsCall.set_output_format ARROW)) as Hne
    by discriminate.
  split; [exact Hne|].
  exact (proj1 (X7_read_options_setters_commute
                  (ReadOptionsCall.set_incompletes (Some true))
                  (ReadOptionsCall.set_output_format ARROW) ReadOptions.new) Hne).
Defined.

(** X8.  [batch_throw_on_error] cannot be unset: after any sequence of
    setter calls it holds a value exactly when it held one before or
    [set_batch_throw_on_error] is among the calls.  The members with a
    setter that takes a [std::optional] can be emptied again. *)
Theorem X8_batch_throw_on_error_stays_set (calls : list ReadOptionsCall.t)
    (options : ReadOptions.t) :
  (is_Some (ReadOptions.batch_throw_on_error (ReadOptionsCall.run_all calls options)) ↔
   is_Some (ReadOptions.batch_throw_on_error options) ∨
   ∃ v, ReadOptionsCall.set_batch_throw_on_error v ∈ calls) ∧
  ReadOptions.incompletes
    (ReadOptionsCall.run_all (calls ++ [ReadOptionsCall.set_incompletes None]) options)
  = None.
Proof.
  split.
  - revert options. induction calls as [|call calls IH]; intros options; simpl.
    + split; [by left|]. intros [?|[v Hv]]; [done|]. by apply elem_of_nil in Hv.
    + rewrite IH. split.
      * intros [Hset|[v Hv]]; [|right; exists v; by right].
        destruct call; try (by left).
        right. eexists. by left.
      * intros [Hset|[v Hv]].
        -- left. destruct options as [[]], call; simpl in *; try done; by eexists.
        -- apply elem_of_cons in Hv as [<-|Hv]; [|right; by exists v].
           left. destruct options as [[]]. simpl. by eexists.
  - unfold ReadOptionsCall.run_all. rewrite foldl_app. simpl.
    by destruct (foldl _ options calls) as [[]].
Qed.

(** X9.  Copies of a [ReadOptions] share one [ReadOptionsData]: a setter
    called on a copy is seen through the original, and the other way round,
    whereas a [ReadOptions] that was constructed separately, and every
    [ReadOptionsData] that existed before, keep their values. *)
Theorem X9_read_options_copies_share (heap : SharedReadOptions.store)
    (call : ReadOptionsCall.t) :
  let original := (SharedReadOptions.new heap).1 in
  let heap1 := (SharedReadOptions.new heap).2 in
  let separate := (SharedReadOptions.new heap1).1 in
  let heap2 := (SharedReadOptions.new heap1).2 in
  let duplicate := SharedReadOptions.copy original in
  SharedReadOptions.view original heap2 = Some ReadOptions.new ∧
  SharedReadOptions.view original (SharedReadOptions.run call duplicate heap2)
  = Some (ReadOptionsCall.run call ReadOptions.new) ∧
  SharedReadOptions.view duplicate (SharedReadOptions.run call original heap2)
  = Some (ReadOptionsCall.run call ReadOptions.new) ∧
  SharedReadOptions.view separate (SharedReadOptions.run call duplicate heap2)
  = Some ReadOptions.new ∧
  (∀ address, address ∈ dom heap →
     SharedReadOptions.run call duplicate heap2 !! address = heap !! address).
Proof.
  intros original heap1 separate heap2 duplicate.
  subst original heap1 separate heap2 duplicate.
  unfold SharedReadOptions.new, SharedReadOptions.view, SharedReadOptions.run,
    SharedReadOptions.copy. simpl.
  unfold SharedReadOptions.store in *.
  pose proof (is_fresh (dom heap)) as Ha.
  pose proof (is_fresh (dom (<[fresh (dom heap):=ReadOptionsData.default]> heap))) as Hb.
  revert Hb.
  generalize (fresh (dom (<[fresh (dom heap):=ReadOptionsData.default]> heap))).
  revert Ha. generalize (fresh (dom heap)). intros a Ha b Hb.
  rewrite dom_insert_L in Hb.
  assert (b ≠ a) as Hba by set_solver.
  split_and!.
  - by rewrite lookup_insert_ne, lookup_insert_eq.
  - rewrite lookup_alter_eq, lookup_insert_ne, lookup_insert_eq by done.
    simpl. by destruct call.
  - rewrite lookup_alter_eq, lookup_insert_ne, lookup_insert_eq by done.
    simpl. by destruct call.
  - by rewrite lookup_alter_ne, lookup_insert_eq.
  - intros address Hin.
    assert (address ≠ a) by set_solver.
    assert (address ≠ b) by set_solver.
    by rewrite lookup_alter_ne, !lookup_insert_ne.
Qed.

(** The statement of X9 for a store that holds one [ReadOptionsData]. *)
Lemma X9_read_options_copies_share_witness :
  let data := ReadOptions.data_ (ReadOptions.set_output_format ARROW ReadOptions.new) in
  let heap : SharedReadOptions.store := {[ 0 := data ]} in
  0 ∈ dom heap ∧
  SharedReadOptions.run (ReadOptionsCall.set_incompletes (Some true))
    (SharedReadOptions.copy (SharedReadOptions.new heap).1)
    (SharedReadOptions.new (SharedReadOptions.new heap).2).2 !! 0
  = heap !! 0.
Proof.
  intros data heap.
  assert (0 ∈ dom heap) as Hin.
  { unfold heap, SharedReadOptions.store. rewrite dom_singleton_L.
    apply elem_of_singleton. reflexivity. }
  split; [exact Hin|].
  exact (proj2 (proj2 (proj2 (proj2 (X9_read_options_copies_share heap
                  (ReadOptionsCall.set_incompletes (Some true)))))) 0 Hin).
Defined.

(** ** Documents and keys *)

Lemma to_int64_small z : (- 2 ^ 63 ≤ z < 2 ^ 63)%Z → to_int64 z = z.
Proof. intros. unfold to_int64. rewrite Z.mod_small by lia. lia. Qed.

Section document_facts.
Context {KeyType : Type} `{EqDecision KeyType}.
Context (VERSION : KeyType).
Context (is_string_key_type : KeyType → bool).
Context (TIMESTAMP : Z).
Context (key_type_value : KeyType → Z).
Context (get_index_value_type : AtomKey.t KeyType → Z).
Context (format_key : VariantKey KeyType → string).
Context {Segment : Type}.
Context (Segment_calculate_size : Segment → Z).
Context (Segment_write_to : Segment → list Byte.byte).

#[local] Abbreviation build_document :=
  (detail.build_document TIMESTAMP key_type_value get_index_value_type format_key
     Segment_calculate_size Segment_write_to).
#[local] Abbreviation atom_key_from_document :=
  (detail.atom_key_from_document is_string_key_type TIMESTAMP).
#[local] Abbreviation ref_key_from_document :=
  (detail.ref_key_from_document VERSION is_string_key_type).
#[local] Abbreviation atom_key_encodable :=
  (detail.atom_key_encodable is_string_key_type TIMESTAMP get_index_value_type).
#[local] Abbreviation stream_id_encodable :=
  (detail.stream_id_encodable is_string_key_type).

Lemma written_buffer_exact total_size (written : list Byte.byte) :
  length written = Z.to_nat total_size →
  detail.written_buffer total_size written = Ok written.
Proof.
  intros Hlen. unfold detail.written_buffer.
  rewrite decide_True by lia. rewrite <- Hlen, Nat.sub_diag. simpl.
  by rewrite (right_id_L [] (++)).
Qed.

(** What the decoders read in the document built for an atom key. *)
Lemma built_atom_document_reads (key : AtomKey.t KeyType) (segment : Segment) doc buffer :
  build_document (KeySegmentPair.mk (atom_key key) segment) = Ok doc →
  detail.written_buffer (Segment_calculate_size segment) (Segment_write_to segment)
  = Ok buffer →
  atom_key_encodable key →
  in_int64 (Segment_calculate_size segment) →
  atom_key_from_document doc (AtomKey.type key) = Ok key ∧
  get_int64 doc "total_size" = Ok (Segment_calculate_size segment) ∧
  get_binary doc "data"
  = Ok (take (Z.to_nat (to_uint32 (Segment_calculate_size segment))) buffer).
Proof.
  intros Hbuild Hbuffer (Hid & Hversion & Hts & Hhash & Hindex) Hsize.
  revert Hbuild. unfold detail.build_document. simpl. rewrite Hbuffer. simpl.
  destruct key as [id version ts hash type start finish]; simpl in *.
  unfold detail.add_atom_key_values, detail.add_common_key_values; simpl.
  destruct start as [s|s], finish as [e|e]; try done.
  - destruct Hindex as (-> & Hs & He). rewrite Z.eqb_refl. simpl.
    destruct id as [n|sid]; simpl in *.
    + destruct Hid as [Hkind Hn]. intros [= <-]. split_and!.
      * unfold detail.atom_key_from_document, detail.stream_id_from_document,
          get_int32, get_int64, get_string_element. simpl.
        rewrite Z.eqb_refl, Hkind. simpl.
        by rewrite !to_int64_small.
      * unfold get_int64. simpl. by rewrite to_int64_small.
      * reflexivity.
    + intros [= <-]. split_and!.
      * unfold detail.atom_key_from_document, detail.stream_id_from_document,
          get_int32, get_int64, get_string_element. simpl.
        rewrite Z.eqb_refl, Hid. simpl.
        by rewrite !to_int64_small.
      * unfold get_int64. simpl. by rewrite to_int64_small.
      * reflexivity.
  - apply Z.eqb_neq in Hindex. rewrite Hindex. simpl.
    destruct id as [n|sid]; simpl in *.
    + destruct Hid as [Hkind Hn]. intros [= <-]. split_and!.
      * unfold detail.atom_key_from_document, detail.stream_id_from_document,
          get_int32, get_int64, get_string_element. simpl.
        rewrite Hindex, Hkind. simpl.
        by rewrite !to_int64_small.
      * unfold get_int64. simpl. by rewrite to_int64_small.
      * reflexivity.
    + intros [= <-]. split_and!.
      * unfold detail.atom_key_from_document, detail.stream_id_from_document,
          get_int32, get_int64, get_string_element. simpl.
        rewrite Hindex, Hid. simpl.
        by rewrite !to_int64_small.
      * unfold get_int64. simpl. by rewrite to_int64_small.
      * reflexivity.
Qed.

(** The document of an atom key can be built when the index values agree
    with the index type and the segment fits the buffer. *)
Lemma build_atom_document_succeeds (key : AtomKey.t KeyType) (segment : Segment) :
  atom_key_encodable key →
  length (Segment_write_to segment) ≤ Z.to_nat (Segment_calculate_size segment) →
  ∃ doc buffer,
    build_document (KeySegmentPair.mk (atom_key key) segment) = Ok doc ∧
    detail.written_buffer (Segment_calculate_size segment) (Segment_write_to segment)
    = Ok buffer.
Proof.
  intros (_ & _ & _ & _ & Hindex) Hlen.
  unfold detail.build_document, detail.written_buffer. simpl.
  rewrite decide_True by done. simpl.
  unfold detail.add_atom_key_values.
  destruct (AtomKey.start_index key) as [s|s], (AtomKey.end_index key) as [e|e];
    try done.
  - destruct Hindex as (-> & _). rewrite Z.eqb_refl. simpl. by eexists _, _.
  - apply Z.eqb_neq in Hindex. rewrite Hindex. simpl. by eexists _, _.
Qed.

(** What the decoders read in the document built for a ref key. *)
Lemma built_ref_document_reads (key : RefKey.t KeyType) (segment : Segment) doc buffer :
  build_document (KeySegmentPair.mk (ref_key key) segment) = Ok doc →
  detail.written_buffer (Segment_calculate_size segment) (Segment_write_to segment)
  = Ok buffer →
  stream_id_encodable (RefKey.id key) (RefKey.type key) →
  in_int64 (Segment_calculate_size segment) →
  ref_key_from_document doc (RefKey.type key)
  = Ok (RefKey.mk (RefKey.id key) (RefKey.type key)
          (bool_decide (RefKey.type key = VERSION))) ∧
  get_int64 doc "total_size" = Ok (Segment_calculate_size segment) ∧
  get_binary doc "data"
  = Ok (take (Z.to_nat (to_uint32 (Segment_calculate_size segment))) buffer).
Proof.
  intros Hbuild Hbuffer Hid Hsize.
  revert Hbuild. unfold detail.build_document. simpl. rewrite Hbuffer. simpl.
  destruct key as [id type old]; simpl in *.
  unfold detail.add_common_key_values; simpl.
  destruct id as [n|sid]; simpl in *.
  - destruct Hid as [Hkind Hn]. intros [= <-]. split_and!.
    + unfold detail.ref_key_from_document, detail.stream_id_from_document, get_int64.
      simpl. rewrite Hkind. simpl. by rewrite to_int64_small.
    + unfold get_int64. simpl. by rewrite to_int64_small.
    + reflexivity.
  - intros [= <-]. split_and!.
    + unfold detail.ref_key_from_document, detail.stream_id_from_document,
        get_string_element. simpl. by rewrite Hid.
    + unfold get_int64. simpl. by rewrite to_int64_small.
    + reflexivity.
Qed.

(** X10.  Decoding undoes encoding for atom keys: when the segment fits its
    announced size and the key is one whose document holds all of it, the
    document that [build_document] makes is read back by
    [atom_key_from_document] as the same key, and its [total_size] and
    [data] elements hold the size and the first [uint32_t(size)] bytes of
    the buffer. *)
Theorem X10_atom_key_document_round_trip (key : AtomKey.t KeyType) (segment : Segment) :
  atom_key_encodable key →
  in_int64 (Segment_calculate_size segment) →
  length (Segment_write_to segment) ≤ Z.to_nat (Segment_calculate_size segment) →
  ∃ doc buffer,
    build_document (KeySegmentPair.mk (atom_key key) segment) = Ok doc ∧
    detail.written_buffer (Segment_calculate_size segment) (Segment_write_to segment)
    = Ok buffer ∧
    atom_key_from_document doc (AtomKey.type key) = Ok key ∧
    get_int64 doc "total_size" = Ok (Segment_calculate_size segment) ∧
    get_binary doc "data"
    = Ok (take (Z.to_nat (to_uint32 (Segment_calculate_size segment))) buffer).
Proof.
  intros Hkey Hsize Hlen.
  destruct (build_atom_document_succeeds key segment Hkey Hlen)
    as (doc & buffer & Hbuild & Hbuffer).
  exists doc, buffer. split; [done|]. split; [done|].
  by apply built_atom_document_reads.
Qed.

(** X11.  For a ref key, [ref_key_from_document] reads the stream id back
    from the built document and takes the key type from the caller, but
    sets the old-type flag to whether the key type is VERSION: the key read
    back is the key written exactly when the key's flag has that value. *)
Theorem X11_ref_key_document_round_trip (key : RefKey.t KeyType) (segment : Segment)
    (doc : document) :
  build_document (KeySegmentPair.mk (ref_key key) segment) = Ok doc →
  stream_id_encodable (RefKey.id key) (RefKey.type key) →
  ref_key_from_document doc (RefKey.type key)
  = Ok (RefKey.mk (RefKey.id key) (RefKey.type key)
          (bool_decide (RefKey.type key = VERSION))) ∧
  (ref_key_from_document doc (RefKey.type key) = Ok key ↔
   RefKey.old_type key = bool_decide (RefKey.type key = VERSION)).
Proof.
  intros Hbuild Hid.
  assert (ref_key_from_document doc (RefKey.type key)
          = Ok (RefKey.mk (RefKey.id key) (RefKey.type key)
                  (bool_decide (RefKey.type key = VERSION)))) as Hread.
  { revert Hbuild. unfold detail.build_document.
    destruct (detail.written_buffer _ _) as [buffer| |]; simpl; [|done..].
    destruct key as [id type old]; simpl in *.
    unfold detail.add_common_key_values; simpl.
    destruct id as [n|sid]; simpl in *; intros [= <-].
    - destruct Hid as [Hkind Hn].
      unfold detail.ref_key_from_document, detail.stream_id_from_document, get_int64.
      simpl. rewrite Hkind. simpl. by rewrite to_int64_small.
    - unfold detail.ref_key_from_document, detail.stream_id_from_document,
        get_string_element. simpl. by rewrite Hid. }
  split; [exact Hread|]. rewrite Hread. destruct key as [id type old]; simpl.
  split; [by intros [= <-]|by intros ->].
Qed.
End document_facts.

(** The statement of X10 at the sample atom key and a segment of two
    bytes. *)
Lemma X10_atom_key_document_round_trip_witness :
  detail.atom_key_encodable Sample.is_string_key_type Sample.TIMESTAMP
    Sample.get_index_value_type Sample.price_atom ∧
  in_int64 (Sample.Segment_calculate_size [Byte.x01; Byte.x02]) ∧
  length (Sample.Segment_write_to [Byte.x01; Byte.x02])
  ≤ Z.to_nat (Sample.Segment_calculate_size [Byte.x01; Byte.x02]) ∧
  ∃ doc,
    detail.build_document Sample.TIMESTAMP Sample.key_type_value
      Sample.get_index_value_type Sample.format_key Sample.Segment_calculate_size
      Sample.Segment_write_to (KeySegmentPair.mk Sample.price_data [Byte.x01; Byte.x02])
    = Ok doc ∧
    detail.atom_key_from_document Sample.is_string_key_type Sample.TIMESTAMP doc
      Sample.TABLE_DATA = Ok Sample.price_atom.
Proof.
  assert (detail.atom_key_encodable Sample.is_string_key_type Sample.TIMESTAMP
            Sample.get_index_value_type Sample.price_atom) as Hkey.
  { unfold detail.atom_key_encodable, detail.stream_id_encodable, in_int64,
      Sample.price_atom. simpl. repeat split; try reflexivity;
      vm_compute; discriminate. }
  assert (in_int64 (Sample.Segment_calculate_size [Byte.x01; Byte.x02])) as Hsize.
  { unfold in_int64. vm_compute. split; [discriminate|reflexivity]. }
  assert (length (Sample.Segment_write_to [Byte.x01; Byte.x02])
          ≤ Z.to_nat (Sample.Segment_calculate_size [Byte.x01; Byte.x02])) as Hlen.
  { vm_compute. lia. }
  split; [exact Hkey|]. split; [exact Hsize|]. split; [exact Hlen|].
  destruct (X10_atom_key_document_round_trip Sample.is_string_key_type Sample.TIMESTAMP
              Sample.key_type_value Sample.get_index_value_type Sample.format_key
              Sample.Segment_calculate_size Sample.Segment_write_to
              Sample.price_atom [Byte.x01; Byte.x02] Hkey Hsize Hlen)
    as (doc & buffer & Hbuild & _ & Hdecode & _).
  exists doc. split; [exact Hbuild|exact Hdecode].
Defined.

(** ** Queries on a collection *)

Lemma matches_key_of_read_query key stream_id doc :
  matches [("key", key); ("stream_id", stream_id)] doc = true →
  matches [("key", key)] doc = true.
Proof.
  unfold matches. simpl. intros H%andb_true_iff. destruct H as [-> _]. done.
Qed.

Lemma find_nil_iff collection query :
  find collection query = [] ↔ ∀ doc, doc ∈ collection → matches query doc = false.
Proof.
  rewrite <- find_one_None. unfold find_one. by rewrite head_None.
Qed.

Lemma find_one_cons collection query doc :
  find_one (doc :: collection) query
  = if matches query doc then Some doc else find_one collection query.
Proof.
  unfold find_one, find. rewrite filter_cons.
  case_decide as Hm; simpl in Hm; destruct (matches query doc); done.
Qed.

Lemma find_one_snoc collection query doc :
  (∀ d, d ∈ collection → matches query d = false) →
  matches query doc = true →
  find_one (collection ++ [doc]) query = Some doc.
Proof.
  intros Hnone Hdoc. induction collection as [|d rest IH]; simpl.
  - by rewrite find_one_cons, Hdoc.
  - rewrite find_one_cons, (Hnone d) by left. apply IH.
    intros d' Hd'. apply Hnone. by right.
Qed.

Lemma replace_first_length collection query replacement :
  length (replace_first collection query replacement) = length collection.
Proof.
  induction collection as [|doc rest IH]; simpl; [done|].
  destruct (matches query doc); simpl; by rewrite ?IH.
Qed.

Lemma replace_first_elem_of collection query replacement d :
  d ∈ replace_first collection query replacement → d = replacement ∨ d ∈ collection.
Proof.
  induction collection as [|doc rest IH]; simpl; [by intros ?%elem_of_nil|].
  destruct (matches query doc).
  - intros [->|?]%elem_of_cons; [by left|right; by right].
  - intros [->|Hin]%elem_of_cons; [right; by left|].
    destruct (IH Hin) as [?|?]; [by left|right; by right].
Qed.

(** After a replacement on a weaker query, the first document that matches
    a stronger query which the replacement satisfies is the replacement. *)
Lemma find_one_replace_first collection weak strong replacement :
  (∀ d, matches strong d = true → matches weak d = true) →
  matches strong replacement = true →
  is_Some (find_one collection weak) →
  find_one (replace_first collection weak replacement) strong = Some replacement.
Proof.
  intros Himp Hrep. induction collection as [|doc rest IH]; simpl.
  - by intros [? ?].
  - rewrite find_one_cons. destruct (matches weak doc) eqn:Hweak.
    + intros _. by rewrite find_one_cons, Hrep.
    + intros Hsome. rewrite find_one_cons.
      destruct (matches strong doc) eqn:Hstrong.
      * apply Himp in Hstrong. congruence.
      * by apply IH.
Qed.

Lemma delete_one_spec collection query :
  let '(rest, n) := delete_one collection query in
  (length rest + Z.to_nat n = length collection) ∧
  (0 ≤ n ≤ 1)%Z ∧
  (n = 0%Z ↔ ∀ d, d ∈ collection → matches query d = false) ∧
  (n = 0%Z → rest = collection).
Proof.
  induction collection as [|doc coll IH]; simpl.
  - split_and!; try done; try lia. split; [|done]. by intros _ d ?%elem_of_nil.
  - destruct (matches query doc) eqn:Hm.
    + split_and!; try lia. split; [done|]. intros Hnone.
      rewrite (Hnone doc) in Hm by left. done.
    + destruct (delete_one coll query) as [rest n].
      destruct IH as (Hlen & Hn & Hzero & Hsame). split_and!; simpl; try lia.
      * rewrite Hzero. split.
        -- intros Hnone d [->|?]%elem_of_cons; [done|by apply Hnone].
        -- intros Hnone d Hd. apply Hnone. by right.
      * intros Hz. by rewrite Hsame.
Qed.

Lemma delete_many_none_left collection query d :
  d ∈ (delete_many collection query).1 → matches query d = false.
Proof.
  unfold delete_many. simpl. intros [Hm _]%list_elem_of_filter.
  destruct (matches query d); [|done]. by destruct Hm.
Qed.

Lemma delete_many_length collection query :
  length (filter (λ doc, ¬ Is_true (matches query doc)) collection)
  + length (find collection query) = length collection.
Proof.
  unfold find. induction collection as [|doc rest IH]; [done|].
  rewrite !filter_cons.
  destruct (matches query doc) eqn:Hm; repeat case_decide; simpl in *;
    try lia; tauto.
Qed.

Lemma delete_many_unchanged collection query :
  find collection query = [] →
  filter (λ doc, ¬ Is_true (matches query doc)) collection = collection.
Proof.
  rewrite find_nil_iff. intros Hnil.
  induction collection as [|doc rest IH]; [done|].
  rewrite filter_cons. rewrite decide_True.
  - f_equal. apply IH. intros d Hd. apply Hnil. by right.
  - rewrite (Hnil doc) by left. simpl. tauto.
Qed.

Lemma delete_many_spec collection query :
  let '(rest, n) := delete_many collection query in
  (length rest + Z.to_nat n = length collection) ∧
  (0 ≤ n)%Z ∧
  (n = 0%Z ↔ ∀ d, d ∈ collection → matches query d = false) ∧
  (n = 0%Z → rest = collection) ∧
  (∀ d, d ∈ rest → matches query d = false).
Proof.
  unfold delete_many. pose proof (delete_many_length collection query) as Hlen.
  split_and!.
  - lia.
  - lia.
  - rewrite <- find_nil_iff. split.
    + intros Hz. apply length_zero_iff_nil. lia.
    + by intros ->.
  - intros Hz. apply delete_many_unchanged, length_zero_iff_nil. lia.
  - intros d [Hm _]%list_elem_of_filter. destruct (matches query d); [|done].
    by destruct Hm.
Qed.

Lemma replace_first_has_replacement collection query replacement :
  is_Some (find_one collection query) →
  replacement ∈ replace_first collection query replacement.
Proof.
  induction collection as [|doc rest IH]; simpl.
  - by intros [? ?].
  - rewrite find_one_cons. destruct (matches query doc).
    + intros _. by left.
    + intros Hsome. right. by apply IH.
Qed.

Lemma find_one_is_Some collection query doc :
  doc ∈ collection → matches query doc = true → is_Some (find_one collection query).
Proof.
  intros Hin Hm. destruct (find_one collection query) eqn:Hfind; [by eexists|].
  rewrite find_one_None in Hfind. rewrite (Hfind doc Hin) in Hm. done.
Qed.

Lemma element_app (d1 d2 : document) name :
  element (d1 ++ d2) name
  = match element d1 name with Some v => Some v | None => element d2 name end.
Proof.
  induction d1 as [|[n v] rest IH]; simpl; [done|]. by destruct (String.eqb n name).
Qed.

Lemma mapM_outcome_snoc {A B} (f : A → outcome B) l x ks k :
  mapM f l = Ok ks → f x = Ok k → mapM f (l ++ [x]) = Ok (ks ++ [k]).
Proof.
  revert ks. induction l as [|a l IH]; intros ks; simpl.
  - intros [= <-] ->. done.
  - destruct (f a) as [b| |]; simpl; [|done..].
    destruct (mapM f l) as [bs| |]; simpl; [|done..].
    intros [= <-] Hx. by rewrite (IH bs eq_refl Hx).
Qed.

Lemma collection_of_insert (c : client) database_name collection_name docs :
  collection_of (<[(database_name, collection_name) := docs]> c)
    database_name collection_name = docs.
Proof. unfold collection_of, client in *. by rewrite lookup_insert_eq. Qed.

Lemma collection_of_insert_ne (c : client) db coll db' coll' docs :
  (db, coll) ≠ (db', coll') →
  collection_of (<[(db, coll) := docs]> c) db' coll' = collection_of c db' coll'.
Proof. intros. unfold collection_of, client in *. by rewrite lookup_insert_ne. Qed.

Lemma get_client_with_server self server :
  MongoClientImpl.get_client (MongoClientImpl.with_server self server) = Ok server.
Proof. reflexivity. Qed.

Section build_document_facts.
Context {KeyType : Type} `{EqDecision KeyType}.
Context (VERSION : KeyType).
Context (is_string_key_type : KeyType → bool).
Context (TIMESTAMP : Z).
Context (key_type_value : KeyType → Z).
Context (get_index_value_type : AtomKey.t KeyType → Z).
Context (format_key : VariantKey KeyType → string).
Context {Segment : Type}.
Context (Segment_calculate_size : Segment → Z).
Context (Segment_write_to : Segment → list Byte.byte).

#[local] Abbreviation build_document :=
  (detail.build_document TIMESTAMP key_type_value get_index_value_type format_key
     Segment_calculate_size Segment_write_to).

Lemma add_atom_key_values_extends basic_builder key extended :
  detail.add_atom_key_values TIMESTAMP get_index_value_type basic_builder key = Ok extended →
  ∃ added, extended = basic_builder ++ added.
Proof.
  unfold detail.add_atom_key_values.
  destruct (_ =? _)%Z;
    destruct (AtomKey.start_index key), (AtomKey.end_index key); simpl; try done.
  all: intros [= <-]; eexists; rewrite <- !(assoc_L (++)); reflexivity.
Qed.

(** Every document that [build_document] makes starts with the key type,
    the formatted key and the stream id, and ends with the size and the
    data. *)
Lemma build_document_shape kv doc :
  build_document kv = Ok doc →
  ∃ middle buffer,
    detail.written_buffer (Segment_calculate_size (KeySegmentPair.segment kv))
      (Segment_write_to (KeySegmentPair.segment kv)) = Ok buffer ∧
    doc = detail.add_common_key_values key_type_value format_key []
            (KeySegmentPair.variant_key kv)
          ++ middle
          ++ [("total_size",
               b_int64 (to_int64 (Segment_calculate_size (KeySegmentPair.segment kv))));
              ("data",
               b_binary (take (Z.to_nat (to_uint32 (Segment_calculate_size
                                                      (KeySegmentPair.segment kv))))
                           buffer))] ∧
    match KeySegmentPair.variant_key kv with
    | atom_key k =>
        detail.add_atom_key_values TIMESTAMP get_index_value_type [] k = Ok middle
    | ref_key _ => middle = []
    end.
Proof.
  unfold detail.build_document.
  destruct (detail.written_buffer _ _) as [buffer| |]; simpl; [|done..].
  destruct kv as [[k|r] segment]; simpl.
  - destruct (detail.add_atom_key_values _ _ _ k) as [extended| |] eqn:Hatom;
      simpl; [|done..].
    intros [= <-].
    revert Hatom. unfold detail.add_atom_key_values.
    destruct (_ =? _)%Z;
      destruct (AtomKey.start_index k), (AtomKey.end_index k); simpl; try done.
    all: intros [= <-]; eexists _, buffer; split; [done|]; split; [|reflexivity].
    all: rewrite <- !(assoc_L (++)); reflexivity.
  - intros [= <-]. exists [], buffer. split; [done|]. split; [|done].
    by rewrite <- !(assoc_L (++)).
Qed.

Lemma build_document_key_elements kv doc :
  build_document kv = Ok doc →
  element doc "key"
  = Some (b_string (c_str (format_key (KeySegmentPair.variant_key kv)))) ∧
  element doc "stream_id"
  = Some (match variant_key_id (KeySegmentPair.variant_key kv) with
          | StringId s => b_string s
          | NumericId n => b_int64 (to_int64 n)
          end).
Proof.
  intros (middle & buffer & _ & -> & _)%build_document_shape.
  rewrite !element_app. unfold detail.add_common_key_values.
  destruct (variant_key_id _); simpl; done.
Qed.
End build_document_facts.

(** The statement of X11 at the sample ref key, and at the same key with the
    old-type flag set. *)
Lemma X11_ref_key_document_round_trip_witness :
  let key := RefKey.mk (StringId "sym") Sample.VERSION_REF false in
  ∃ doc,
    detail.build_document Sample.TIMESTAMP Sample.key_type_value
      Sample.get_index_value_type Sample.format_key Sample.Segment_calculate_size
      Sample.Segment_write_to (KeySegmentPair.mk (ref_key key) [Byte.x01; Byte.x02])
    = Ok doc ∧
    detail.stream_id_encodable Sample.is_string_key_type (RefKey.id key) (RefKey.type key) ∧
    detail.ref_key_from_document Sample.VERSION Sample.is_string_key_type doc
      Sample.VERSION_REF = Ok key.
Proof.
  intros key. eexists.
  assert (detail.stream_id_encodable Sample.is_string_key_type (RefKey.id key)
            (RefKey.type key)) as Hid by reflexivity.
  split; [reflexivity|]. split; [exact Hid|].
  exact (proj1 (X11_ref_key_document_round_trip Sample.VERSION Sample.is_string_key_type
                  Sample.TIMESTAMP Sample.key_type_value Sample.get_index_value_type
                  Sample.format_key Sample.Segment_calculate_size Sample.Segment_write_to
                  key [Byte.x01; Byte.x02] _ eq_refl Hid)).
Defined.

(** ** Writing, reading and removing *)

Section mongo_write_facts.
Context {KeyType : Type} `{EqDecision KeyType}.
Context (VERSION : KeyType).
Context (is_string_key_type is_ref_key_class : KeyType → bool).
Context (TIMESTAMP : Z).
Context (format_key : VariantKey KeyType → string).
Context (format_stream_id : StreamId → string).
Context {Segment : Type}.
Context (Segment_from_bytes : list Byte.byte → Z → bool → outcome Segment).
Context {FailureType : Type} (READ : FailureType).
Context (simulator : StorageFailureSimulator.t FailureType).
Context (key_type_value : KeyType → Z).
Context (get_index_value_type : AtomKey.t KeyType → Z).
Context (Segment_calculate_size : Segment → Z).
Context (Segment_write_to : Segment → list Byte.byte).

#[local] Abbreviation read_segment :=
  (MongoClientImpl.read_segment VERSION is_string_key_type TIMESTAMP format_key
     format_stream_id Segment_from_bytes READ simulator).
#[local] Abbreviation read_query := (MongoClientImpl.read_query format_key format_stream_id).
#[local] Abbreviation key_exists := (MongoClientImpl.key_exists format_key).
#[local] Abbreviation list_keys :=
  (MongoClientImpl.list_keys VERSION is_string_key_type is_ref_key_class TIMESTAMP).
#[local] Abbreviation key_from_document :=
  (MongoClientImpl.key_from_document VERSION is_string_key_type is_ref_key_class
     TIMESTAMP).
#[local] Abbreviation build_document :=
  (detail.build_document TIMESTAMP key_type_value get_index_value_type format_key
     Segment_calculate_size Segment_write_to).
#[local] Abbreviation write_segment :=
  (MongoClientImpl.write_segment TIMESTAMP format_key key_type_value get_index_value_type
     Segment_calculate_size Segment_write_to).
#[local] Abbreviation update_segment :=
  (MongoClientImpl.update_segment TIMESTAMP format_key key_type_value
     get_index_value_type Segment_calculate_size Segment_write_to).
#[local] Abbreviation remove_keyvalue :=
  (MongoClientImpl.remove_keyvalue format_key format_stream_id).
#[local] Abbreviation atom_key_encodable :=
  (detail.atom_key_encodable is_string_key_type TIMESTAMP get_index_value_type).
#[local] Abbreviation simulator_passes :=
  ((if StorageFailureSimulator.configured simulator
    then StorageFailureSimulator.go simulator READ else Ok tt) = Ok tt).

#[local] Abbreviation segment_round_trips :=
  (MongoClientImpl.segment_round_trips Segment_from_bytes Segment_calculate_size
     Segment_write_to).
#[local] Abbreviation key_text_plain :=
  (MongoClientImpl.key_text_plain format_key format_stream_id).

Lemma built_document_matches_read_query kv doc :
  build_document kv = Ok doc →
  key_text_plain (KeySegmentPair.variant_key kv) →
  matches (read_query (KeySegmentPair.variant_key kv)) doc = true.
Proof.
  intros [Hkey Hid]%build_document_key_elements (Htext & sid & Hsid & Hformat).
  unfold matches, MongoClientImpl.read_query. simpl.
  rewrite Hkey, Hid, Hsid, Htext, Hformat. by rewrite !String.eqb_refl.
Qed.

Lemma built_document_matches_key kv doc :
  build_document kv = Ok doc →
  c_str (format_key (KeySegmentPair.variant_key kv))
  = format_key (KeySegmentPair.variant_key kv) →
  matches [("key", format_key (KeySegmentPair.variant_key kv))] doc = true.
Proof.
  intros [Hkey _]%build_document_key_elements Htext.
  unfold matches. simpl. rewrite Hkey, Htext. by rewrite String.eqb_refl.
Qed.

(** Reading back the document of a key, once it is the first match. *)
Lemma read_segment_of_built self database_name collection_name c key segment doc :
  MongoClientImpl.get_client self = Ok c →
  simulator_passes →
  find_one (collection_of c database_name collection_name) (read_query key) = Some doc →
  build_document (KeySegmentPair.mk key segment) = Ok doc →
  detail.variant_key_from_document VERSION is_string_key_type TIMESTAMP doc key = Ok key →
  segment_round_trips segment →
  read_segment self database_name collection_name key
  = Ok (Some (KeySegmentPair.mk key segment)).
Proof.
  intros Hclient Hsim Hfound Hbuild Hdecode (Hsize & Hlen & Hcodec).
  erewrite read_segment_reached by eassumption. rewrite Hfound.
  pose proof Hbuild as Hshape.
  apply build_document_shape in Hshape as (middle & buffer & Hbuffer & Hdoc & Hmiddle).
  simpl in Hbuffer, Hdoc, Hmiddle.
  rewrite written_buffer_exact in Hbuffer by done. apply Ok_inj in Hbuffer. subst buffer.
  assert (get_int64 doc "total_size" = Ok (Segment_calculate_size segment)
          ∧ get_binary doc "data" = Ok (Segment_write_to segment)) as [Hs Hd].
  { assert (to_int64 (Segment_calculate_size segment) = Segment_calculate_size segment)
      as Hint by (apply to_int64_small; lia).
    assert (take (Z.to_nat (to_uint32 (Segment_calculate_size segment)))
              (Segment_write_to segment) = Segment_write_to segment) as Htake.
    { unfold to_uint32. rewrite Z.mod_small by lia. rewrite <- Hlen. apply firstn_all. }
    rewrite Hint, Htake in Hdoc. clear Hint Htake.
    destruct key as [k|r]; simpl in *.
    - revert Hmiddle. unfold detail.add_atom_key_values.
      destruct (_ =? _)%Z;
        destruct (AtomKey.start_index k), (AtomKey.end_index k); simpl; try done.
      all: intros [= <-]; subst doc; unfold get_int64, get_binary;
        unfold detail.add_common_key_values; simpl; destruct (AtomKey.id k);
        split; reflexivity.
    - subst middle doc. unfold get_int64, get_binary, detail.add_common_key_values.
      simpl. destruct (RefKey.id r); split; reflexivity. }
  rewrite Hs. simpl. rewrite Hdecode. simpl.
  rewrite bool_decide_eq_true_2 by done. simpl. rewrite Hd. simpl.
  unfold to_uint64. rewrite Z.mod_small by lia. by rewrite Hcodec.
Qed.
(** X12.  An atom key written by [write_segment] is read back by
    [read_segment], with its segment, and found by [key_exists], provided
    that no stored document matched the key's read query before, that the
    key is one whose document holds all of it and has plain text, and that
    the segment round-trips through the codec.  The write adds its document
    at the end of the collection. *)
Theorem X12_write_then_read_atom_key (self : MongoClientImpl.t)
    (database_name collection_name : string) (c : client)
    (key : AtomKey.t KeyType) (segment : Segment) :
  MongoClientImpl.get_client self = Ok c →
  simulator_passes →
  atom_key_encodable key →
  key_text_plain (atom_key key) →
  segment_round_trips segment →
  (∀ d, d ∈ collection_of c database_name collection_name →
        matches (read_query (atom_key key)) d = false) →
  ∃ self' doc,
    write_segment self database_name collection_name
      (KeySegmentPair.mk (atom_key key) segment) = Ok (true, self') ∧
    MongoClientImpl.get_client self'
    = Ok (<[(database_name, collection_name) :=
              collection_of c database_name collection_name ++ [doc]]> c) ∧
    read_segment self' database_name collection_name (atom_key key)
    = Ok (Some (KeySegmentPair.mk (atom_key key) segment)) ∧
    key_exists self' database_name collection_name (atom_key key) = Ok true.
Proof.
  intros Hclient Hsim Hkey Htext Hsegment Hnone.
  pose proof Hsegment as (Hsize & Hlen & _).
  destruct (build_atom_document_succeeds is_string_key_type TIMESTAMP key_type_value
              get_index_value_type format_key Segment_calculate_size Segment_write_to
              key segment Hkey) as (doc & buffer & Hbuild & Hbuffer);
    [lia|].
  assert (matches (read_query (atom_key key)) doc = true) as Hmatch
    by (by eapply (built_document_matches_read_query (KeySegmentPair.mk _ _))).
  exists (MongoClientImpl.with_server self
            (<[(database_name, collection_name) :=
                 collection_of c database_name collection_name ++ [doc]]> c)), doc.
  split_and!.
  - unfold MongoClientImpl.write_segment. rewrite Hclient. simpl. by rewrite Hbuild.
  - reflexivity.
  - eapply read_segment_of_built; try done.
    + rewrite collection_of_insert. by apply find_one_snoc.
    + unfold detail.variant_key_from_document. simpl.
      eapply built_atom_document_reads in Hbuild as (-> & _); try done.
      unfold in_int64. lia.
  - unfold MongoClientImpl.key_exists. simpl. rewrite collection_of_insert.
    rewrite bool_decide_eq_true_2; [done|].
    eapply find_one_is_Some.
    + apply elem_of_app. right. by left.
    + destruct Htext as [Htext _].
      by eapply (built_document_matches_key (KeySegmentPair.mk _ _)).
Qed.

(** X13.  A ref key written by [write_segment] is read back by
    [read_segment], with its segment, whatever the collection held before:
    the write replaces the first document with the key's text, or adds its
    document when there is none, so the collection grows by one document at
    most.  The key must have plain text, a string key type and an old-type
    flag that says whether its type is VERSION, and the segment must
    round-trip through the codec. *)
Theorem X13_write_then_read_ref_key (self : MongoClientImpl.t)
    (database_name collection_name : string) (c : client)
    (key : RefKey.t KeyType) (segment : Segment) :
  MongoClientImpl.get_client self = Ok c →
  simulator_passes →
  key_text_plain (ref_key key) →
  is_string_key_type (RefKey.type key) = true →
  RefKey.old_type key = bool_decide (RefKey.type key = VERSION) →
  segment_round_trips segment →
  ∃ self' c',
    write_segment self database_name collection_name
      (KeySegmentPair.mk (ref_key key) segment) = Ok (true, self') ∧
    MongoClientImpl.get_client self' = Ok c' ∧
    read_segment self' database_name collection_name (ref_key key)
    = Ok (Some (KeySegmentPair.mk (ref_key key) segment)) ∧
    key_exists self' database_name collection_name (ref_key key) = Ok true ∧
    length (collection_of c' database_name collection_name)
    = match find_one (collection_of c database_name collection_name)
              [("key", format_key (ref_key key))] with
      | Some _ => length (collection_of c database_name collection_name)
      | None => S (length (collection_of c database_name collection_name))
      end.
Proof.
  intros Hclient Hsim Htext Hkind Hold Hsegment.
  pose proof Hsegment as (Hsize & Hlen & _).
  pose proof Htext as (Hplain & sid & Hsid & Hformat). simpl in Hsid.
  assert (∃ doc, build_document (KeySegmentPair.mk (ref_key key) segment) = Ok doc)
    as [doc Hbuild].
  { unfold detail.build_document. simpl.
    rewrite written_buffer_exact by done. simpl. by eexists. }
  assert (matches (read_query (ref_key key)) doc = true) as Hmatch
    by (by eapply (built_document_matches_read_query (KeySegmentPair.mk _ _))).
  assert (matches [("key", format_key (ref_key key))] doc = true) as Hmatch_key
    by (by eapply matches_key_of_read_query).
  set (collection := collection_of c database_name collection_name).
  set (replaced :=
         (replace_one collection [("key", format_key (ref_key key))] doc true).1).
  assert (write_segment self database_name collection_name
            (KeySegmentPair.mk (ref_key key) segment)
          = Ok (true, MongoClientImpl.with_server self
                        (<[(database_name, collection_name) := replaced]> c))) as Hwrite.
  { unfold MongoClientImpl.write_segment. rewrite Hclient. simpl. rewrite Hbuild. simpl.
    fold collection. subst replaced.
    by destruct (replace_one collection _ doc true). }
  assert (find_one replaced (read_query (ref_key key)) = Some doc ∧
          doc ∈ replaced ∧
          length replaced
          = match find_one collection [("key", format_key (ref_key key))] with
            | Some _ => length collection
            | None => S (length collection)
            end) as (Hfound & Hin & Hcount).
  { subst replaced. unfold replace_one.
    destruct (find_one collection _) as [old|] eqn:Hold_doc; simpl.
    - split_and!.
      + apply find_one_replace_first; [|done|by rewrite Hold_doc].
        intros d. apply matches_key_of_read_query.
      + apply replace_first_has_replacement. by rewrite Hold_doc.
      + apply replace_first_length.
    - split_and!.
      + apply find_one_snoc; [|done]. intros d Hd.
        rewrite find_one_None in Hold_doc.
        destruct (matches (read_query (ref_key key)) d) eqn:Hd_match; [|done].
        apply matches_key_of_read_query in Hd_match.
        by rewrite (Hold_doc d Hd) in Hd_match.
      + apply elem_of_app. right. by left.
      + rewrite length_app. simpl. lia. }
  eexists _, _. split; [exact Hwrite|]. split; [reflexivity|]. split_and!.
  - eapply read_segment_of_built; try done.
    + by rewrite collection_of_insert.
    + unfold detail.variant_key_from_document. simpl.
      eapply built_ref_document_reads in Hbuild as (-> & _).
      * simpl. destruct key as [id type old]. simpl in *. by rewrite Hold.
      * by apply written_buffer_exact.
      * unfold detail.stream_id_encodable. by rewrite Hsid.
      * unfold in_int64. lia.
  - unfold MongoClientImpl.key_exists. simpl. rewrite collection_of_insert.
    rewrite bool_decide_eq_true_2; [done|]. by eapply find_one_is_Some.
  - by rewrite collection_of_insert.
Qed.
(** The collection after [write_segment]: the old documents, one of them
    possibly replaced by the new document, which is among them. *)
Lemma write_segment_inv self database_name collection_name c kv result self' :
  MongoClientImpl.get_client self = Ok c →
  write_segment self database_name collection_name kv = Ok (result, self') →
  ∃ doc written,
    build_document kv = Ok doc ∧
    result = true ∧
    self' = MongoClientImpl.with_server self
              (<[(database_name, collection_name) := written]> c) ∧
    (matches [("key", format_key (KeySegmentPair.variant_key kv))] doc = true →
     doc ∈ written) ∧
    (∀ d, d ∈ written →
          d = doc ∨ d ∈ collection_of c database_name collection_name) ∧
    (holds_AtomKey (KeySegmentPair.variant_key kv) = true →
     written = collection_of c database_name collection_name ++ [doc]).
Proof.
  intros Hclient. unfold MongoClientImpl.write_segment. rewrite Hclient. simpl.
  destruct (build_document kv) as [doc| |]; simpl; [|done..].
  set (collection := collection_of c database_name collection_name).
  destruct (holds_AtomKey (KeySegmentPair.variant_key kv)); simpl.
  - intros [= <- <-]. exists doc, (collection ++ [doc]). split_and!; try done.
    + intros _. apply elem_of_app. right. by left.
    + intros d [?| ->%list_elem_of_singleton]%elem_of_app; [by right|by left].
  - unfold replace_one.
    destruct (find_one collection _) as [old|] eqn:Hold; simpl; intros [= <- <-].
    + eexists doc, _. split_and!; try done.
      * intros _. apply replace_first_has_replacement. by rewrite Hold.
      * apply replace_first_elem_of.
    + exists doc, (collection ++ [doc]). split_and!; try done.
      * intros _. apply elem_of_app. right. by left.
      * intros d [?| ->%list_elem_of_singleton]%elem_of_app; [by right|by left].
Qed.

(** X14.  A key with a numeric stream id that [write_segment] has stored is
    found by [key_exists] and not by [read_segment]: the document holds the
    stream id as a 64-bit integer, the read query asks for it as a string,
    and so the document matches no read query.  (Stated for a collection in
    which no document matched the key's read query before the write.) *)
Theorem X14_numeric_stream_id_not_read_back (self self' : MongoClientImpl.t)
    (database_name collection_name : string) (c : client)
    (kv : KeySegmentPair.t KeyType Segment) (n : Z) :
  let key := KeySegmentPair.variant_key kv in
  MongoClientImpl.get_client self = Ok c →
  simulator_passes →
  variant_key_id key = NumericId n →
  c_str (format_key key) = format_key key →
  (∀ d, d ∈ collection_of c database_name collection_name →
        matches (read_query key) d = false) →
  write_segment self database_name collection_name kv = Ok (true, self') →
  read_segment self' database_name collection_name key = Ok None ∧
  key_exists self' database_name collection_name key = Ok true ∧
  (∀ other doc, build_document kv = Ok doc → matches (read_query other) doc = false).
Proof.
  intros key Hclient Hsim Hid Htext Hnone Hwrite.
  destruct (write_segment_inv _ _ _ _ _ _ _ Hclient Hwrite)
    as (doc & written & Hbuild & _ & -> & Hin & Hsub & _).
  assert (∀ other, matches (read_query other) doc = false) as Hdoc.
  { intros other. apply build_document_key_elements in Hbuild as [_ Hstream].
    fold key in Hstream. rewrite Hid in Hstream.
    unfold matches, MongoClientImpl.read_query. simpl. rewrite Hstream.
    by rewrite andb_false_r. }
  split_and!.
  - erewrite read_segment_reached by (try reflexivity; done).
    rewrite collection_of_insert.
    assert (find_one written (read_query key) = None) as ->; [|done].
    apply find_one_None. intros d Hd.
    destruct (Hsub d Hd) as [->|?]; [apply Hdoc|by apply Hnone].
  - unfold MongoClientImpl.key_exists. simpl. rewrite collection_of_insert.
    rewrite bool_decide_eq_true_2; [done|].
    assert (matches [("key", format_key key)] doc = true) as Hkey
      by (by eapply built_document_matches_key).
    eapply find_one_is_Some; [by apply Hin|done].
  - intros other doc' Hbuild'. rewrite Hbuild in Hbuild'. apply Ok_inj in Hbuild'.
    subst doc'. apply Hdoc.
Qed.

(** X15.  Whenever [read_segment] returns a segment for a key, [key_exists]
    returns true for that key. *)
Theorem X15_read_implies_key_exists (self : MongoClientImpl.t)
    (database_name collection_name : string) (key : VariantKey KeyType)
    (pair : KeySegmentPair.t KeyType Segment) :
  read_segment self database_name collection_name key = Ok (Some pair) →
  key_exists self database_name collection_name key = Ok true.
Proof.
  intros Hread.
  pose proof Hread as (c & Hclient & Hsim)%read_segment_returns.
  erewrite read_segment_reached in Hread by done.
  destruct (find_one _ (read_query key)) as [doc|] eqn:Hfound; [|done].
  apply find_one_Some in Hfound as [Hin Hmatch].
  unfold MongoClientImpl.key_exists. rewrite Hclient. simpl.
  rewrite bool_decide_eq_true_2; [done|].
  eapply find_one_is_Some; [done|]. by eapply matches_key_of_read_query.
Qed.
(** X16.  [remove_keyvalue] reports how many documents it removed: none
    exactly when no document matched the key's read query, in which case the
    collection is left as it was; at most one for an atom key; and for a ref
    key all that matched, so that a following [read_segment] returns nothing.
    Other collections are not touched. *)
Theorem X16_remove_keyvalue_counts (self : MongoClientImpl.t)
    (database_name collection_name : string) (c : client) (key : VariantKey KeyType) :
  MongoClientImpl.get_client self = Ok c →
  ∃ n self' c',
    remove_keyvalue self database_name collection_name key
    = Ok (DeleteResult.mk (Some n), self') ∧
    MongoClientImpl.get_client self' = Ok c' ∧
    let before := collection_of c database_name collection_name in
    let after := collection_of c' database_name collection_name in
    (0 ≤ n)%Z ∧
    length after + Z.to_nat n = length before ∧
    (n = 0%Z ↔ ∀ d, d ∈ before → matches (read_query key) d = false) ∧
    (n = 0%Z → after = before) ∧
    (holds_AtomKey key = true → (n ≤ 1)%Z) ∧
    (holds_AtomKey key = false →
     (∀ d, d ∈ after → matches (read_query key) d = false) ∧
     (simulator_passes →
      read_segment self' database_name collection_name key = Ok None)) ∧
    (∀ db coll, (database_name, collection_name) ≠ (db, coll) →
                collection_of c' db coll = collection_of c db coll).
Proof.
  intros Hclient. unfold MongoClientImpl.remove_keyvalue. rewrite Hclient. simpl.
  set (before := collection_of c database_name collection_name).
  fold (read_query key).
  destruct (holds_AtomKey key) eqn:Hkind; simpl.
  - pose proof (delete_one_spec before (read_query key)) as Hspec.
    destruct (delete_one before (read_query key)) as [rest n].
    destruct Hspec as (Hlen & Hn & Hzero & Hsame).
    eexists n, _, _. split; [reflexivity|]. split; [reflexivity|].
    rewrite collection_of_insert. split_and!; try done; try lia.
    intros db coll Hne. by apply collection_of_insert_ne.
  - pose proof (delete_many_spec before (read_query key)) as Hspec.
    unfold delete_many in Hspec.
    destruct Hspec as (Hlen & Hn & Hzero & Hsame & Hnone).
    eexists _, _, _. split; [reflexivity|]. split; [reflexivity|].
    rewrite collection_of_insert. split_and!; try done.
    + intros _. split; [done|]. intros Hsim.
      erewrite read_segment_reached by (try reflexivity; done).
      rewrite collection_of_insert.
      match goal with
      | |- context [find_one ?l (read_query key)] =>
          assert (find_one l (read_query key) = None) as ->; [|done]
      end.
      apply find_one_None. exact Hnone.
    + intros db coll Hne. by apply collection_of_insert_ne.
Qed.


(** X18.  Once a client is acquired, [drop_collection] returns whether or
    not dropping throws.  After a drop that did not throw the collection is
    empty: [list_keys] returns no key and [read_segment] no segment.  After
    one that threw, the client's data is as before.  Other collections are
    not touched in either case. *)
Theorem X18_drop_collection (drop_error : option exception) (self : MongoClientImpl.t)
    (database_name collection_name : string) (c : client) :
  MongoClientImpl.get_client self = Ok c →
  ∃ self' c',
    MongoClientImpl.drop_collection drop_error self database_name collection_name
    = Ok self' ∧
    MongoClientImpl.get_client self' = Ok c' ∧
    (drop_error = None →
     collection_of c' database_name collection_name = [] ∧
     (∀ key_type prefix,
        list_keys self' database_name collection_name key_type prefix = Ok []) ∧
     (∀ key, simulator_passes →
             read_segment self' database_name collection_name key = Ok None)) ∧
    (is_Some drop_error → c' = c) ∧
    (∀ db coll, (database_name, collection_name) ≠ (db, coll) →
                collection_of c' db coll = collection_of c db coll).
Proof.
  intros Hclient. unfold MongoClientImpl.drop_collection. rewrite Hclient. simpl.
  destruct drop_error as [e|].
  - eexists _, _. split; [reflexivity|]. split; [reflexivity|].
    split_and!; done.
  - eexists _, _. split; [reflexivity|]. split; [reflexivity|].
    assert (collection_of (delete (database_name, collection_name) c)
              database_name collection_name = []) as Hempty.
    { unfold collection_of, client in *. by rewrite lookup_delete_eq. }
    split_and!.
    + intros _. split_and!; [done| |].
      * intros key_type prefix. unfold MongoClientImpl.list_keys. simpl.
        rewrite Hempty. by destruct prefix as [p|]; [destruct (negb _)|].
      * intros key Hsim. erewrite read_segment_reached by (try reflexivity; done).
        by rewrite Hempty.
    + by intros [? ?].
    + intros db coll Hne. unfold collection_of, client in *.
      by rewrite lookup_delete_ne.
Qed.

(** X19.  After [write_segment] has stored an atom key, [list_keys] for the
    key's type without a prefix returns the keys it returned before followed
    by the new key, provided the key is one whose document holds all of it
    and its type is not of the ref-key class. *)
Theorem X19_list_keys_after_write (self self' : MongoClientImpl.t)
    (database_name collection_name : string) (c : client)
    (key : AtomKey.t KeyType) (segment : Segment) (keys : list (VariantKey KeyType)) :
  MongoClientImpl.get_client self = Ok c →
  atom_key_encodable key →
  in_int64 (Segment_calculate_size segment) →
  is_ref_key_class (AtomKey.type key) = false →
  list_keys self database_name collection_name (AtomKey.type key) None = Ok keys →
  write_segment self database_name collection_name
    (KeySegmentPair.mk (atom_key key) segment) = Ok (true, self') →
  list_keys self' database_name collection_name (AtomKey.type key) None
  = Ok (keys ++ [atom_key key]).
Proof.
  intros Hclient Hkey Hsize Hclass Hlist Hwrite.
  destruct (write_segment_inv _ _ _ _ _ _ _ Hclient Hwrite)
    as (doc & written & Hbuild & _ & -> & _ & _ & Hwritten).
  rewrite (Hwritten eq_refl). clear Hwritten.
  revert Hlist. unfold MongoClientImpl.list_keys. rewrite Hclient. simpl.
  rewrite collection_of_insert, !find_all. intros Hlist.
  apply mapM_outcome_snoc; [done|].
  unfold MongoClientImpl.key_from_document. rewrite Hclass. simpl.
  assert (∃ buffer, detail.written_buffer (Segment_calculate_size segment)
                      (Segment_write_to segment) = Ok buffer) as [buffer Hbuffer].
  { revert Hbuild. unfold detail.build_document. simpl.
    destruct (detail.written_buffer _ _) as [buffer| |]; simpl; [|done..]. eauto. }
  eapply built_atom_document_reads in Hbuild as (-> & _); done.
Qed.
End mongo_write_facts.

(** ** The statements above on the sample client *)

Lemma sample_lib_collection :
  collection_of Sample.server "arcticdb" "lib" = [Sample.other_doc; Sample.sym_doc].
Proof. vm_compute. reflexivity. Qed.

Lemma sample_segment_round_trips :
  MongoClientImpl.segment_round_trips Sample.Segment_from_bytes
    Sample.Segment_calculate_size Sample.Segment_write_to [Byte.x01; Byte.x02].
Proof.
  unfold MongoClientImpl.segment_round_trips. split; [|split].
  - vm_compute. split; [discriminate|reflexivity].
  - reflexivity.
  - reflexivity.
Qed.

Lemma sample_price_encodable :
  detail.atom_key_encodable Sample.is_string_key_type Sample.TIMESTAMP
    Sample.get_index_value_type Sample.price_atom.
Proof.
  unfold detail.atom_key_encodable, detail.stream_id_encodable, in_int64,
    Sample.price_atom. simpl. repeat split; try reflexivity; vm_compute; discriminate.
Qed.

Lemma sample_volume_encodable :
  detail.atom_key_encodable Sample.is_string_key_type Sample.TIMESTAMP
    Sample.get_index_value_type Sample.volume_atom.
Proof.
  unfold detail.atom_key_encodable, detail.stream_id_encodable, in_int64,
    Sample.volume_atom. simpl. repeat split; try reflexivity; vm_compute; discriminate.
Qed.

Lemma sample_price_unmatched :
  ∀ d, d ∈ collection_of Sample.server "arcticdb" "lib" →
       matches (MongoClientImpl.read_query Sample.format_key Sample.format_stream_id
                  Sample.price_data) d = false.
Proof.
  rewrite sample_lib_collection. intros d Hd.
  repeat (apply elem_of_cons in Hd as [-> | Hd]); try (vm_compute; reflexivity).
  by apply elem_of_nil in Hd.
Qed.

(** The statement of X12 on the sample client. *)
Lemma X12_write_then_read_atom_key_witness :
  MongoClientImpl.get_client Sample.mongo = Ok Sample.server ∧
  MongoClientImpl.key_text_plain Sample.format_key Sample.format_stream_id
    Sample.price_data ∧
  ∃ self',
    Sample.write_segment Sample.mongo "arcticdb" "lib"
      (KeySegmentPair.mk Sample.price_data [Byte.x01; Byte.x02]) = Ok (true, self') ∧
    Sample.read_segment self' "arcticdb" "lib" Sample.price_data
    = Ok (Some (KeySegmentPair.mk Sample.price_data [Byte.x01; Byte.x02])).
Proof.
  assert (MongoClientImpl.get_client Sample.mongo = Ok Sample.server) as Hclient
    by reflexivity.
  assert (MongoClientImpl.key_text_plain Sample.format_key Sample.format_stream_id
            Sample.price_data) as Htext.
  { split; [vm_compute; reflexivity|]. exists "price". split; reflexivity. }
  split; [exact Hclient|]. split; [exact Htext|].
  destruct (X12_write_then_read_atom_key Sample.VERSION Sample.is_string_key_type
              Sample.TIMESTAMP Sample.format_key Sample.format_stream_id
              Sample.Segment_from_bytes Sample.READ Sample.simulator
              Sample.key_type_value Sample.get_index_value_type
              Sample.Segment_calculate_size Sample.Segment_write_to
              Sample.mongo "arcticdb" "lib" Sample.server Sample.price_atom
              [Byte.x01; Byte.x02] Hclient eq_refl sample_price_encodable Htext
              sample_segment_round_trips sample_price_unmatched)
    as (self' & doc & Hwrite & _ & Hread & _).
  exists self'. split; [exact Hwrite|exact Hread].
Defined.

(** The statement of X13 on the sample client: the stored document of
    [sym] is replaced. *)
Lemma X13_write_then_read_ref_key_witness :
  let key := RefKey.mk (StringId "sym") Sample.VERSION_REF false in
  MongoClientImpl.key_text_plain Sample.format_key Sample.format_stream_id (ref_key key) ∧
  RefKey.old_type key = bool_decide (RefKey.type key = Sample.VERSION) ∧
  ∃ self' c',
    Sample.write_segment Sample.mongo "arcticdb" "lib"
      (KeySegmentPair.mk (ref_key key) [Byte.x01; Byte.x02]) = Ok (true, self') ∧
    MongoClientImpl.get_client self' = Ok c' ∧
    Sample.read_segment self' "arcticdb" "lib" (ref_key key)
    = Ok (Some (KeySegmentPair.mk (ref_key key) [Byte.x01; Byte.x02])) ∧
    length (collection_of c' "arcticdb" "lib") = 2.
Proof.
  intros key.
  assert (MongoClientImpl.key_text_plain Sample.format_key Sample.format_stream_id
            (ref_key key)) as Htext.
  { split; [vm_compute; reflexivity|]. exists "sym". split; reflexivity. }
  assert (RefKey.old_type key = bool_decide (RefKey.type key = Sample.VERSION)) as Hold
    by reflexivity.
  split; [exact Htext|]. split; [exact Hold|].
  destruct (X13_write_then_read_ref_key Sample.VERSION Sample.is_string_key_type
              Sample.TIMESTAMP Sample.format_key Sample.format_stream_id
              Sample.Segment_from_bytes Sample.READ Sample.simulator
              Sample.key_type_value Sample.get_index_value_type
              Sample.Segment_calculate_size Sample.Segment_write_to
              Sample.mongo "arcticdb" "lib" Sample.server key
              [Byte.x01; Byte.x02] eq_refl eq_refl Htext eq_refl Hold
              sample_segment_round_trips)
    as (self' & c' & Hwrite & Hclient' & Hread & _ & Hlength).
  exists self', c'. split; [exact Hwrite|]. split; [exact Hclient'|].
  split; [exact Hread|]. rewrite Hlength. vm_compute. reflexivity.
Defined.

(** The statement of X14 on the sample client, for a key with the numeric
    stream id 5. *)
Lemma X14_numeric_stream_id_not_read_back_witness :
  variant_key_id Sample.numbered_data = NumericId 5 ∧
  ∃ self',
    Sample.write_segment Sample.mongo "arcticdb" "lib"
      (KeySegmentPair.mk Sample.numbered_data [Byte.x01; Byte.x02]) = Ok (true, self') ∧
    Sample.read_segment self' "arcticdb" "lib" Sample.numbered_data = Ok None ∧
    Sample.key_exists self' "arcticdb" "lib" Sample.numbered_data = Ok true.
Proof.
  split; [reflexivity|]. eexists.
  assert (∀ d, d ∈ collection_of Sample.server "arcticdb" "lib" →
               matches (MongoClientImpl.read_query Sample.format_key
                          Sample.format_stream_id Sample.numbered_data) d = false)
    as Hnone.
  { rewrite sample_lib_collection. intros d Hd.
    repeat (apply elem_of_cons in Hd as [-> | Hd]); try (vm_compute; reflexivity).
    by apply elem_of_nil in Hd. }
  assert (c_str (Sample.format_key Sample.numbered_data)
          = Sample.format_key Sample.numbered_data) as Htext
    by (vm_compute; reflexivity).
  split; [reflexivity|].
  destruct (X14_numeric_stream_id_not_read_back Sample.VERSION Sample.is_string_key_type
              Sample.TIMESTAMP Sample.format_key Sample.format_stream_id
              Sample.Segment_from_bytes Sample.READ Sample.simulator
              Sample.key_type_value Sample.get_index_value_type
              Sample.Segment_calculate_size Sample.Segment_write_to
              Sample.mongo _ "arcticdb" "lib" Sample.server
              (KeySegmentPair.mk Sample.numbered_data [Byte.x01; Byte.x02]) 5%Z
              eq_refl eq_refl eq_refl Htext Hnone eq_refl) as (Hread & Hexists & _).
  split; [exact Hread|exact Hexists].
Defined.

(** The statement of X15 on the sample client. *)
Lemma X15_read_implies_key_exists_witness :
  Sample.read_segment Sample.mongo "arcticdb" "lib" Sample.sym_ref
  = Ok (Some (KeySegmentPair.mk Sample.sym_ref [Byte.x01; Byte.x02])) ∧
  Sample.key_exists Sample.mongo "arcticdb" "lib" Sample.sym_ref = Ok true.
Proof.
  assert (Sample.read_segment Sample.mongo "arcticdb" "lib" Sample.sym_ref
          = Ok (Some (KeySegmentPair.mk Sample.sym_ref [Byte.x01; Byte.x02]))) as Hread
    by (vm_compute; reflexivity).
  split; [exact Hread|].
  exact (X15_read_implies_key_exists Sample.VERSION Sample.is_string_key_type
           Sample.TIMESTAMP Sample.format_key Sample.format_stream_id
           Sample.Segment_from_bytes Sample.READ Sample.simulator
           Sample.mongo "arcticdb" "lib" Sample.sym_ref _ Hread).
Defined.

(** The statement of X16 on the sample client, for the stored ref key. *)
Lemma X16_remove_keyvalue_counts_witness :
  MongoClientImpl.get_client Sample.mongo = Ok Sample.server ∧
  ∃ n self',
    Sample.remove_keyvalue Sample.mongo "arcticdb" "lib" Sample.sym_ref
    = Ok (DeleteResult.mk (Some n), self') ∧
    Sample.read_segment self' "arcticdb" "lib" Sample.sym_ref = Ok None.
Proof.
  assert (MongoClientImpl.get_client Sample.mongo = Ok Sample.server) as Hclient
    by reflexivity.
  split; [exact Hclient|].
  destruct (X16_remove_keyvalue_counts Sample.VERSION Sample.is_string_key_type
              Sample.TIMESTAMP Sample.format_key Sample.format_stream_id
              Sample.Segment_from_bytes Sample.READ Sample.simulator
              Sample.mongo "arcticdb" "lib" Sample.server Sample.sym_ref Hclient)
    as (n & self' & c' & Hremove & _ & _ & _ & _ & _ & _ & Href & _).
  exists n, self'. split; [exact Hremove|].
  exact (proj2 (Href eq_refl) eq_refl).
Defined.


(** The statement of X18 on the sample client. *)
Lemma X18_drop_collection_witness :
  MongoClientImpl.get_client Sample.mongo = Ok Sample.server ∧
  ∃ self',
    MongoClientImpl.drop_collection None Sample.mongo "arcticdb" "lib" = Ok self' ∧
    Sample.list_keys self' "arcticdb" "lib" Sample.VERSION_REF None = Ok [].
Proof.
  assert (MongoClientImpl.get_client Sample.mongo = Ok Sample.server) as Hclient
    by reflexivity.
  split; [exact Hclient|].
  destruct (X18_drop_collection Sample.VERSION Sample.is_string_key_type
              Sample.is_ref_key_class Sample.TIMESTAMP Sample.format_key
              Sample.format_stream_id Sample.Segment_from_bytes Sample.READ
              Sample.simulator None Sample.mongo "arcticdb" "lib" Sample.server Hclient)
    as (self' & c' & Hdrop & _ & Hdropped & _).
  exists self'. split; [exact Hdrop|].
  exact (proj1 (proj2 (Hdropped eq_refl)) Sample.VERSION_REF None).
Defined.

(** The statement of X19 on the sample client, for a collection that
    already holds [price_data]: the listing is [price_data], and after
    [volume_data] is written it is [price_data] followed by [volume_data]. *)
Lemma X19_list_keys_after_write_witness :
  Sample.list_keys Sample.priced_mongo "arcticdb" "data" Sample.TABLE_DATA None
  = Ok [Sample.price_data] ∧
  ∃ self',
    Sample.write_segment Sample.priced_mongo "arcticdb" "data"
      (KeySegmentPair.mk Sample.volume_data [Byte.x03]) = Ok (true, self') ∧
    Sample.list_keys self' "arcticdb" "data" Sample.TABLE_DATA None
    = Ok [Sample.price_data; Sample.volume_data].
Proof.
  assert (Sample.list_keys Sample.priced_mongo "arcticdb" "data" Sample.TABLE_DATA None
          = Ok [Sample.price_data]) as Hlist by (vm_compute; reflexivity).
  split; [exact Hlist|]. eexists. split; [reflexivity|].
  assert (in_int64 (Sample.Segment_calculate_size [Byte.x03])) as Hsize.
  { unfold in_int64. vm_compute. split; [discriminate|reflexivity]. }
  exact (X19_list_keys_after_write Sample.VERSION Sample.is_string_key_type
           Sample.is_ref_key_class Sample.TIMESTAMP Sample.format_key
           Sample.key_type_value Sample.get_index_value_type
           Sample.Segment_calculate_size Sample.Segment_write_to
           Sample.priced_mongo _ "arcticdb" "data" _ Sample.volume_atom
           [Byte.x03] [Sample.price_data] eq_refl sample_volume_encodable Hsize eq_refl
           Hlist eq_refl).
Defined.
